(** * PipelineRecord: the record store and the aggregation of PipelineRecord.py

    A shallow embedding of the persistence, business and aggregation
    functions of [PipelineRecord.py]:

    - the interpreter's built-ins the program calls ([float], [int],
      [input], [print], list indexing) are modelled first;
    - the two record classes, the functions [load_data_from_file],
      [add_record], [edit_record], [delete_record] and [aggregate_data]
      follow, statement by statement;
    - the properties of the store and of the aggregation come last.

    Text is ASCII text ([string]); a float is an IEEE 754 binary64 value
    ([spec_float] with [prec = 53] and [emax = 1024]); a Python [int] is a
    [Z]. *)

From Stdlib Require Import ZArith String Ascii List Bool Lia.
From Stdlib Require Import Floats.SpecFloat.
From stdpp Require Import base option list strings gmap pretty.

Open Scope Z_scope.

(** ** Exceptions and results *)

Inductive exn :=
  | ValueError | TypeError | KeyError | IndexError | AttributeError
  | EOFError | FileNotFoundError
  | PermissionError | IsADirectoryError | UnicodeDecodeError.

Inductive result (A : Type) :=
  | Ok (a : A)
  | Raise (e : exn).
Arguments Ok {A} a.
Arguments Raise {A} e.

#[global] Instance exn_eq_dec : EqDecision exn.
Proof. solve_decision. Defined.

#[global] Instance result_ret : MRet result := λ A, Ok.
#[global] Instance result_bind : MBind result := λ A B f m,
  match m with
  | Ok a => f a
  | Raise e => Raise e
  end.

Definition is_Ok {A} (r : result A) : bool :=
  match r with Ok _ => true | Raise _ => false end.

(** ** Values held by a record field

    [input()] returns a [str]; a row of [csv.DictReader] maps a column to
    a [str], or to [None] when the line is shorter than the header. *)

Inductive pyval :=
  | PyStr (s : string)
  | PyNone.

#[global] Instance pyval_eq_dec : EqDecision pyval.
Proof. solve_decision. Defined.

(** [str(v)], as an f-string renders a field. *)
Definition str (v : pyval) : string :=
  match v with
  | PyStr s => s
  | PyNone => "None"
  end.

(** ** Characters *)

Definition code (c : ascii) : Z := Z.of_nat (nat_of_ascii c).

Definition Py_ISSPACE (c : ascii) : bool :=
  ((9 <=? code c) && (code c <=? 13)) || (code c =? 32).

Definition Py_ISDIGIT (c : ascii) : bool :=
  (48 <=? code c) && (code c <=? 57).

Definition Py_TOLOWER (c : ascii) : ascii :=
  if (65 <=? code c) && (code c <=? 90)
  then ascii_of_nat (nat_of_ascii c + 32) else c.

Fixpoint lstrip (s : list ascii) : list ascii :=
  match s with
  | c :: s' => if Py_ISSPACE c then lstrip s' else s
  | [] => []
  end.

(** Leading and trailing white space is dropped before a number is read. *)
Definition strip (s : list ascii) : list ascii :=
  rev (lstrip (rev (lstrip s))).

(** An optional sign; [true] is [-]. *)
Definition sign (s : list ascii) : bool * list ascii :=
  match s with
  | "-"%char :: s' => (true, s')
  | "+"%char :: s' => (false, s')
  | _ => (false, s)
  end.

(** The longest run of decimal digits at the head of [s]: the number they
    spell after [acc], how many there are, and what follows them. *)
Fixpoint digits (acc : Z) (s : list ascii) : Z * nat * list ascii :=
  match s with
  | c :: s' =>
      if Py_ISDIGIT c then
        let '(v, n, r) := digits (10 * acc + (code c - 48)) s' in (v, S n, r)
      else (acc, O, s)
  | [] => (acc, O, [])
  end.

(** ** [float(x)]

    Underscores are accepted between two digits only and are removed
    before the text is read ([prev] is the character before [s]). *)
Fixpoint without_underscores (prev : ascii) (s : list ascii)
  : option (list ascii) :=
  match s with
  | [] => if Ascii.eqb prev "_" then None else Some []
  | c :: s' =>
      if Ascii.eqb c "_" then
        if Py_ISDIGIT prev then without_underscores c s' else None
      else if Ascii.eqb prev "_" && negb (Py_ISDIGIT c) then None
      else cons c <$> without_underscores c s'
  end.

Definition prec : Z := 53.
Definition emax : Z := 1024.

(** The binary64 value nearest to [m * 10 ^ e10] (ties to even), signed
    by [neg]; too large a value is an infinity. *)
Definition decimal_to_double (neg : bool) (m e10 : Z) : spec_float :=
  match m with
  | Zpos p =>
      if 0 <=? e10 then
        binary_normalize prec emax
          (if neg then - (m * 10 ^ e10) else m * 10 ^ e10) 0 false
      else
        SFdiv prec emax (S754_finite neg p 0)
          (S754_finite false (Z.to_pos (10 ^ (- e10))) 0)
  | _ => S754_zero neg
  end.

(** [inf], [infinity] and [nan], in any case, with an optional sign. *)
Definition parse_inf_or_nan (s : list ascii) : option spec_float :=
  let '(neg, r) := sign s in
  let r := string_of_list_ascii (map Py_TOLOWER r) in
  if String.eqb r "inf" || String.eqb r "infinity" then
    Some (S754_infinity neg)
  else if String.eqb r "nan" then Some S754_nan
  else None.

(** What may follow the digits: nothing, or [e], an optional sign and at
    least one digit. *)
Definition exponent (s : list ascii) : option Z :=
  match s with
  | [] => Some 0
  | c :: s' =>
      if Ascii.eqb (Py_TOLOWER c) "e" then
        let '(neg, r) := sign s' in
        match digits 0 r with
        | (v, S _, []) => Some (if neg then - v else v)
        | _ => None
        end
      else None
  end.

Definition strtod (s : list ascii) : option spec_float :=
  match parse_inf_or_nan s with
  | Some x => Some x
  | None =>
      let '(neg, r) := sign s in
      let '(ip, ni, r1) := digits 0 r in
      let '(m, nf, r2) :=
        match r1 with
        | "."%char :: r1' => digits ip r1'
        | _ => (ip, O, r1)
        end in
      match (ni + nf)%nat with
      | O => None
      | S _ => e ← exponent r2; Some (decimal_to_double neg m (e - Z.of_nat nf))
      end
  end.

Definition float_of_string (s : string) : option spec_float :=
  without_underscores "000"%char (strip (list_ascii_of_string s)) ≫= strtod.

Definition float (x : pyval) : result spec_float :=
  match x with
  | PyStr s =>
      match float_of_string s with
      | Some v => Ok v
      | None => Raise ValueError
      end
  | PyNone => Raise TypeError
  end.

(** The comparisons of a float with an [int] literal. The literals of the
    program, 20 and 50, are binary64 values. *)
Definition of_int (n : Z) : spec_float := binary_normalize prec emax n 0 false.

Definition float_gt (v : spec_float) (n : Z) : bool := SFltb (of_int n) v.
Definition float_le (v : spec_float) (n : Z) : bool := SFleb v (of_int n).
Definition int_lt (n : Z) (v : spec_float) : bool := SFltb (of_int n) v.

Definition is_nan (v : spec_float) : bool :=
  match v with S754_nan => true | _ => false end.

(** ** [int(x)] on text, base 10

    White space around, an optional sign, digits with single underscores
    between them; a text of more than 4300 digits is refused. *)
Definition int_max_str_digits : nat := 4300.

Definition int_of_string (s : string) : option Z :=
  let '(neg, r) := sign (strip (list_ascii_of_string s)) in
  match r with
  | c :: _ =>
      if Py_ISDIGIT c then
        r' ← without_underscores "000"%char r;
        match digits 0 r' with
        | (v, n, []) =>
            if (n <=? int_max_str_digits)%nat
            then Some (if neg then - v else v) else None
        | _ => None
        end
      else None
  | [] => None
  end.

Definition int (s : string) : result Z :=
  match int_of_string s with
  | Some n => Ok n
  | None => Raise ValueError
  end.

(** ** The two record classes

    [FormattedPipelineRecord] is a subclass of [PipelineRecord] with the
    same two attributes and another [__str__]. *)

Inductive record :=
  | PipelineRecord (throughput available_capacity : pyval)
  | FormattedPipelineRecord (throughput available_capacity : pyval).

#[global] Instance record_eq_dec : EqDecision record.
Proof. solve_decision. Defined.

Definition throughput (r : record) : pyval :=
  match r with
  | PipelineRecord t _ | FormattedPipelineRecord t _ => t
  end.

Definition available_capacity (r : record) : pyval :=
  match r with
  | PipelineRecord _ c | FormattedPipelineRecord _ c => c
  end.

(** [isinstance(r, FormattedPipelineRecord)] *)
Definition isinstance_FormattedPipelineRecord (r : record) : bool :=
  match r with
  | PipelineRecord _ _ => false
  | FormattedPipelineRecord _ _ => true
  end.

(** [r.throughput = v] and [r.available_capacity = v]: the object keeps
    its class. *)
Definition set_throughput (v : pyval) (r : record) : record :=
  match r with
  | PipelineRecord _ c => PipelineRecord v c
  | FormattedPipelineRecord _ c => FormattedPipelineRecord v c
  end.

Definition set_available_capacity (v : pyval) (r : record) : record :=
  match r with
  | PipelineRecord t _ => PipelineRecord t v
  | FormattedPipelineRecord t _ => FormattedPipelineRecord t v
  end.

(** [getattr(r, field)] for the two data attributes, the only names the
    program passes. *)
Definition getattr (r : record) (field : string) : result pyval :=
  if String.eqb field "throughput" then Ok (throughput r)
  else if String.eqb field "available_capacity" then Ok (available_capacity r)
  else Raise AttributeError.

(** ** The session: the list of records, the terminal and the files

    [records] is the list object that [main_menu] holds and passes to the
    business functions, which change it in place; it is part of the state
    so that a change made before an exception is raised stays visible.
    Every slot of the list holds an object of its own (each of
    [load_data_from_file], [add_record] and [edit_record] creates the object
    it stores), so a slot is modelled by the class and the two attributes of
    its object, and an assignment to an attribute of the object in a slot
    by an update of that slot.

    [files] gives, for each file that exists, the rows [csv.DictReader]
    yields from it and then the exception, if there is one, that ends the
    reading: the one [open] raises for a file that exists and cannot be
    opened (a directory, a file without the permission to read it), before
    any row, or the one the reader raises where the text cannot be decoded.
    For a name that [files] does not hold, [open] raises
    [FileNotFoundError]. *)

Inductive event :=
  | Print (line : string)
  | Prompt (text : string)
  | PrintExn (prefix : string) (e : exn).

Record state := State {
  records : list record;
  stdin : list string;
  stdout : list event;
  files : gmap string (list (gmap string pyval) * option exn)
}.

Definition with_records (f : list record → list record) (σ : state) : state :=
  State (f (records σ)) (stdin σ) (stdout σ) (files σ).

Definition emit (e : event) (σ : state) : state :=
  State (records σ) (stdin σ) (stdout σ ++ [e]) (files σ).

Definition M (A : Type) : Type := state → result A * state.

Definition ret {A} (a : A) : M A := λ σ, (Ok a, σ).

#[global] Instance M_ret : MRet M := @ret.
#[global] Instance M_bind : MBind M := λ A B f m σ,
  match m σ with
  | (Ok a, σ') => f a σ'
  | (Raise e, σ') => (Raise e, σ')
  end.

Definition lift {A} (r : result A) : M A := λ σ, (r, σ).

Definition print (line : string) : M unit := λ σ, (Ok (), emit (Print line) σ).

Definition print_exn (prefix : string) (e : exn) : M unit :=
  λ σ, (Ok (), emit (PrintExn prefix e) σ).

(** [input(prompt)] writes the prompt and reads the next line. *)
Definition input (prompt : string) : M string := λ σ,
  match stdin σ with
  | line :: rest =>
      (Ok line, State (records σ) rest (stdout σ ++ [Prompt prompt]) (files σ))
  | [] => (Raise EOFError, emit (Prompt prompt) σ)
  end.

(** *** Operations on the list [records] *)

(** The position an index [i] denotes in a list of [n] elements; a
    negative index counts from the end. *)
Definition position (n : nat) (i : Z) : option nat :=
  let j := if i <? 0 then i + Z.of_nat n else i in
  if (0 <=? j) && (j <? Z.of_nat n) then Some (Z.to_nat j) else None.

Definition len : M Z := λ σ, (Ok (Z.of_nat (length (records σ))), σ).

Definition append (r : record) : M unit :=
  λ σ, (Ok (), with_records (λ l, l ++ [r]) σ).

(** [records[i]] *)
Definition getitem (i : Z) : M record := λ σ,
  match position (length (records σ)) i ≫= λ k, records σ !! k with
  | Some r => (Ok r, σ)
  | None => (Raise IndexError, σ)
  end.

(** [records[i] = r] *)
Definition setitem (i : Z) (r : record) : M unit := λ σ,
  match position (length (records σ)) i with
  | Some k => (Ok (), with_records (λ l, <[k := r]> l) σ)
  | None => (Raise IndexError, σ)
  end.

(** [records.pop(i)] *)
Definition pop (i : Z) : M record := λ σ,
  match position (length (records σ)) i ≫= λ k, (k,.) <$> records σ !! k with
  | Some (k, r) => (Ok r, with_records (λ l, delete k l) σ)
  | None => (Raise IndexError, σ)
  end.

(** An assignment to an attribute of the object in slot [i], [i] being a
    position of the list. *)
Definition assign (i : Z) (f : record → record) : M unit :=
  λ σ, (Ok (), with_records (λ l, alter f (Z.to_nat i) l) σ).

(** ** Persistence layer *)

(** [row[key]] *)
Definition row_getitem (row : gmap string pyval) (key : string) : result pyval :=
  match row !! key with
  | Some v => Ok v
  | None => Raise KeyError
  end.

(** The record the body of the loop of [load_data_from_file] builds from
    a row. *)
Definition row_record (row : gmap string pyval) : result record :=
  t ← row_getitem row "Throughput (1000 m3/d)";
  v ← float t;
  if float_gt v 50 then
    t ← row_getitem row "Throughput (1000 m3/d)";
    c ← row_getitem row "Available Capacity (1000 m3/d)";
    Ok (FormattedPipelineRecord t c)
  else
    t ← row_getitem row "Throughput (1000 m3/d)";
    c ← row_getitem row "Available Capacity (1000 m3/d)";
    Ok (PipelineRecord t c).

(** The [for] loop over the rows: the local list [records] after the loop
    and the exception that ended it, if one did. [ending] is the exception
    the reader raises when it is asked for a row after the last one. *)
Fixpoint load_rows (ending : option exn) (rows : list (gmap string pyval))
    (records : list record) : list record * option exn :=
  match rows with
  | [] => (records, ending)
  | row :: rows' =>
      match row_record row with
      | Raise e => (records, Some e)
      | Ok record =>
          let records := records ++ [record] in
          if 100 <=? Z.of_nat (length records) then (records, None)
          else load_rows ending rows' records
      end
  end.

(** The two [except] clauses of [load_data_from_file]. *)
Definition load_except (file_name : string) (e : exn) : M unit :=
  match e with
  | FileNotFoundError => print ("Error: " +:+ file_name +:+ " was not found.")
  | _ => print_exn "An error occurred: " e
  end.

(** [open(file_name)] read through [csv.DictReader]: the rows of the file
    and the exception that ends the reading, if there is one. *)
Definition open_csv (file_name : string)
  : M (list (gmap string pyval) * option exn) := λ σ,
  match files σ !! file_name with
  | Some contents => (Ok contents, σ)
  | None => (Raise FileNotFoundError, σ)
  end.

Definition load_data_from_file (file_name : string) : M (list record) := λ σ,
  match open_csv file_name σ with
  | (Raise e, σ') => (load_except file_name e;; ret []) σ'
  | (Ok (rows, ending), σ') =>
      match load_rows ending rows [] with
      | (records, None) => ret records σ'
      | (records, Some e) => (load_except file_name e;; ret records) σ'
      end
  end.

(** ** Business layer *)

Definition add_record : M unit :=
  throughput ← input "Enter throughput (1000 m3/d): ";
  available_capacity ← input "Enter available capacity (1000 m3/d): ";
  v ← lift (float (PyStr throughput));
  let record :=
    if float_gt v 50
    then FormattedPipelineRecord (PyStr throughput) (PyStr available_capacity)
    else PipelineRecord (PyStr throughput) (PyStr available_capacity) in
  append record;;
  print "Record added successfully.".

Definition edit_record : M unit :=
  n ← len;
  s ← input ("Enter record number to edit (1 to " +:+ pretty n +:+ "): ");
  k ← lift (int s);
  let record_id := k - 1 in
  n ← len;
  if (0 <=? record_id) && (record_id <? n) then
    current_record ← getitem record_id;
    throughput ← input ("Enter new throughput (current: "
                          +:+ str (throughput current_record) +:+ "): ");
    available_capacity ← input ("Enter new available capacity (current: "
                          +:+ str (available_capacity current_record) +:+ "): ");
    assign record_id (set_throughput (PyStr throughput));;
    assign record_id (set_available_capacity (PyStr available_capacity));;
    v ← lift (float (PyStr throughput));
    if float_gt v 50 && negb (isinstance_FormattedPipelineRecord current_record) then
      setitem record_id
        (FormattedPipelineRecord (PyStr throughput) (PyStr available_capacity));;
      print "Record updated and converted to FormattedPipelineRecord."
    else
      v ← lift (float (PyStr throughput));
      if float_le v 50 && isinstance_FormattedPipelineRecord current_record then
        setitem record_id
          (PipelineRecord (PyStr throughput) (PyStr available_capacity));;
        print "Record updated and converted to PipelineRecord."
      else
        print "Record updated successfully."
  else
    print "Invalid record number.".

Definition delete_record : M unit :=
  n ← len;
  s ← input ("Enter record number to delete (1 to " +:+ pretty n +:+ "): ");
  k ← lift (int s);
  let record_id := k - 1 in
  n ← len;
  if (0 <=? record_id) && (record_id <? n) then
    pop record_id;;
    print "Record deleted successfully."
  else
    print "Invalid record number.".

(** ** Aggregation *)

(** [categories[key] += 1] *)
Definition increment (categories : gmap string Z) (key : string)
  : result (gmap string Z) :=
  match categories !! key with
  | Some n => Ok (<[key := n + 1]> categories)
  | None => Raise KeyError
  end.

(** The [for] loop of [aggregate_data] over the dictionary [categories]. *)
Fixpoint aggregate_loop (field : string) (records : list record)
    (categories : gmap string Z) : result (gmap string Z) :=
  match records with
  | [] => Ok categories
  | record :: records' =>
      x ← getattr record field;
      value ← float x;
      categories ←
        (if float_le value 20 then increment categories "Low (0-20)"
         else if int_lt 20 value && float_le value 50 then
           increment categories "Medium (20-50)"
         else increment categories "High (50+)");
      aggregate_loop field records' categories
  end.

Definition aggregate_data (records : list record) (field : string)
  : result (gmap string Z) :=
  aggregate_loop field records
    (<["High (50+)" := 0]> (<["Medium (20-50)" := 0]> (<["Low (0-20)" := 0]> ∅))).

(** A session that starts with the list [l] and the lines [lines] typed at
    the terminal. *)
Definition session (l : list record) (lines : list string) : state :=
  State l lines [] ∅.

(** ** Presentation layer *)

Definition newline : string := String "010" EmptyString.

(** [str(record)]: the method [__str__] of the class of the record. The two
    pictographs of the formatted text are held as their UTF-8 bytes. *)
Definition __str__ (self : record) : string :=
  match self with
  | PipelineRecord throughput available_capacity =>
      "Throughput: " +:+ str throughput
        +:+ " (1000 m3/d), Available Capacity: " +:+ str available_capacity
        +:+ " (1000 m3/d)"
  | FormattedPipelineRecord throughput available_capacity =>
      newline +:+ "********** Formatted Pipeline Record **********" +:+ newline
        +:+ "🚀 Throughput       : " +:+ str throughput +:+ " (1000 m3/d)"
        +:+ newline
        +:+ "💧 Available Capacity: " +:+ str available_capacity
        +:+ " (1000 m3/d)" +:+ newline
        +:+ "***********************************************"
  end.

(** The list [records] itself. *)
Definition get_records : M (list record) := λ σ, (Ok (records σ), σ).

(** The loop of [display_records] over [enumerate(records)], from the
    index [i]. *)
Fixpoint display_loop (i : Z) (l : list record) : M unit :=
  match l with
  | [] => ret ()
  | record :: l' =>
      print (pretty (i + 1) +:+ ". " +:+ __str__ record);;
      display_loop (i + 1) l'
  end.

Definition display_records : M unit :=
  print (newline +:+ "Pipeline Throughput and Capacity Records:");;
  l ← get_records;
  display_loop 0 l.

(** ** The horizontal bar chart *)

(** What [generate_horizontal_bar_chart] hands to the plotting library:
    the categories and the counts of [plt.barh] and the title. *)
Record chart := Chart {
  chart_categories : list string;
  chart_counts : list Z;
  chart_title : string
}.

(** A dictionary lists its keys in the order in which they were first
    inserted: for the dictionary of [aggregate_data], the order of its
    literal. *)
Definition insertion_order : list string :=
  ["Low (0-20)"; "Medium (20-50)"; "High (50+)"].

(** [list(d.keys())] and [list(d.values())] *)
Definition keys (d : gmap string Z) : list string :=
  List.filter (λ k, bool_decide (is_Some (d !! k))) insertion_order.

Definition values (d : gmap string Z) : list Z :=
  omap (λ k, d !! k) insertion_order.

(** The value is the chart drawn, [None] when the function returns without
    drawing. *)
Definition generate_horizontal_bar_chart : M (option chart) :=
  l ← get_records;
  match l with
  | [] =>
      print (newline
               +:+ "No data loaded. Please load data before generating a chart.");;
      ret None
  | _ :: _ =>
      print (newline +:+ "Choose the field to visualize:");;
      print "1. Available Capacity";;
      print "2. Throughput";;
      choice ← input "Enter your choice (1 or 2): ";
      '(field, title) ←
        (if String.eqb choice "1" then
           ret ("available_capacity",
                "Aggregated Horizontal Bar Chart: Available Capacity")
         else if String.eqb choice "2" then
           ret ("throughput", "Aggregated Horizontal Bar Chart: Throughput")
         else
           print "Invalid choice. Defaulting to Available Capacity.";;
           ret ("available_capacity",
                "Aggregated Horizontal Bar Chart: Available Capacity"));
      aggregated_data ← lift (aggregate_data l field);
      let categories := keys aggregated_data in
      let counts := values aggregated_data in
      ret (Some (Chart categories counts title))
  end.

(** ** Notions used by the statements *)

(** The number of elements of [l] that satisfy [p]. *)
Fixpoint count {A} (p : A → bool) (l : list A) : Z :=
  match l with
  | [] => 0
  | x :: l' => (if p x then 1 else 0) + count p l'
  end.

(** The dictionary of [aggregate_data] with the three counts [low], [medium]
    and [high]. *)
Definition categories_of (low medium high : Z) : gmap string Z :=
  <["High (50+)" := high]>
    (<["Medium (20-50)" := medium]> (<["Low (0-20)" := low]> ∅)).

(** The value [aggregate_data] reads in a record. *)
Definition field_value (field : string) (r : record) : result spec_float :=
  x ← getattr r field; float x.

(** The branch the loop of [aggregate_data] takes on a value. *)
Definition in_low (v : spec_float) : bool := float_le v 20.
Definition in_medium (v : spec_float) : bool :=
  negb (float_le v 20) && (int_lt 20 v && float_le v 50).
Definition in_high (v : spec_float) : bool :=
  negb (float_le v 20) && negb (int_lt 20 v && float_le v 50).

(** A record whose throughput reads as a number and whose class is the
    formatted one exactly when that number is greater than 50. *)
Definition record_ok (r : record) : bool :=
  match float (throughput r) with
  | Ok v => bool_decide (isinstance_FormattedPipelineRecord r = float_gt v 50)
  | Raise _ => false
  end.

Definition store_ok (l : list record) : bool := forallb record_ok l.

(** What [edit_record] has written to the terminal once its three lines
    are read, the list being [l] and the record in the slot [current_record]. *)
Definition edit_prompts (l : list record) (current_record : record) : list event :=
  [Prompt ("Enter record number to edit (1 to "
             +:+ pretty (Z.of_nat (length l)) +:+ "): ");
   Prompt ("Enter new throughput (current: "
             +:+ str (throughput current_record) +:+ "): ");
   Prompt ("Enter new available capacity (current: "
             +:+ str (available_capacity current_record) +:+ "): ")].

(** The object of a slot after the two assignments of [edit_record] to its
    attributes. *)
Definition overwritten (throughput available_capacity : string)
    (current_record : record) : record :=
  set_available_capacity (PyStr available_capacity)
    (set_throughput (PyStr throughput) current_record).

(** A row of a file with the two columns of the data set. *)
Definition row_of (throughput available_capacity : pyval) : gmap string pyval :=
  <["Throughput (1000 m3/d)" := throughput]>
    (<["Available Capacity (1000 m3/d)" := available_capacity]> ∅).

(** A session whose only file is [file_name], with the rows [rows], read
    to its end without an exception. *)
Definition session_with_file (file_name : string)
    (rows : list (gmap string pyval)) : state :=
  State [] [] [] {[file_name := (rows, None)]}.

(** A row from which the loop of [load_data_from_file] builds a record:
    it has the two columns and its throughput reads as a number. *)
Definition well_formed (row : gmap string pyval) : bool :=
  match row !! "Throughput (1000 m3/d)",
        row !! "Available Capacity (1000 m3/d)" with
  | Some t, Some _ => is_Ok (float t)
  | _, _ => false
  end.

(** The rows before the first row that is not well formed. *)
Fixpoint well_formed_prefix (rows : list (gmap string pyval))
  : list (gmap string pyval) :=
  match rows with
  | [] => []
  | row :: rows' =>
      if well_formed row then row :: well_formed_prefix rows' else []
  end.

(** [r] is the record of the row [row]: it holds the texts of the two
    columns of the row as they are, and it is formatted when the throughput
    is greater than 50 and plain when it is not. *)
Definition row_gives (row : gmap string pyval) (r : record) : Prop :=
  ∃ t c v,
    row !! "Throughput (1000 m3/d)" = Some t ∧
    row !! "Available Capacity (1000 m3/d)" = Some c ∧
    float t = Ok v ∧
    throughput r = t ∧
    available_capacity r = c ∧
    isinstance_FormattedPipelineRecord r = float_gt v 50.

(** The row that holds the two attributes of a record under the two
    columns of the data set. *)
Definition record_row (r : record) : gmap string pyval :=
  row_of (throughput r) (available_capacity r).

(** A record whose throughput reads as NaN. *)
Definition throughput_is_nan (r : record) : bool :=
  match float (throughput r) with
  | Ok v => is_nan v
  | Raise _ => false
  end.

(** The field and the title [generate_horizontal_bar_chart] takes for a
    choice: the throughput for "2", the available capacity for "1" and for
    anything else. *)
Definition chosen_field (choice : string) : string :=
  if String.eqb choice "2" then "throughput" else "available_capacity".

Definition chosen_title (choice : string) : string :=
  if String.eqb choice "2"
  then "Aggregated Horizontal Bar Chart: Throughput"
  else "Aggregated Horizontal Bar Chart: Available Capacity".

(** What [generate_horizontal_bar_chart] writes before it aggregates. *)
Definition chart_prompts (choice : string) : list event :=
  [Print (newline +:+ "Choose the field to visualize:");
   Print "1. Available Capacity";
   Print "2. Throughput";
   Prompt "Enter your choice (1 or 2): "]
  ++ (if String.eqb choice "1" || String.eqb choice "2" then []
      else [Print "Invalid choice. Defaulting to Available Capacity."]).

(** The line [display_records] prints for the record at position [j]. *)
Definition display_line (j : nat) (r : record) : event :=
  Print (pretty (Z.of_nat j + 1) +:+ ". " +:+ __str__ r).

(** * Properties *)

(** ** The built-ins on examples *)

Example float_examples :
  float (PyStr "20") = Ok (S754_finite false 5629499534213120 (-48)) ∧
  float (PyStr "50") = Ok (S754_finite false 7036874417766400 (-47)) ∧
  float (PyStr "50.0001") = Ok (S754_finite false 7036888491515236 (-47)) ∧
  float (PyStr " 1_0.5e1 ") = Ok (S754_finite false 7388718138654720 (-46)) ∧
  float (PyStr "NaN") = Ok S754_nan ∧
  float (PyStr "-inf") = Ok (S754_infinity true) ∧
  float (PyStr "1e400") = Ok (S754_infinity false) ∧
  float (PyStr "abc") = Raise ValueError ∧
  float (PyStr "") = Raise ValueError ∧
  float (PyStr "1__0") = Raise ValueError ∧
  float PyNone = Raise TypeError.
Proof. vm_compute. repeat split. Qed.

Example int_examples :
  int " 12 " = Ok 12 ∧ int "-3" = Ok (-3) ∧ int "0_7" = Ok 7 ∧
  int "1.0" = Raise ValueError ∧ int "" = Raise ValueError ∧
  int "- 5" = Raise ValueError ∧ int "5_" = Raise ValueError.
Proof. vm_compute. repeat split. Qed.

(** ** Comparisons of binary64 values *)

Lemma of_int_20 : of_int 20 = S754_finite false 5629499534213120 (-48).
Proof. reflexivity. Qed.

Lemma of_int_50 : of_int 50 = S754_finite false 7036874417766400 (-47).
Proof. reflexivity. Qed.

Lemma SFcompare_antisym (x y : spec_float) :
  SFcompare y x = CompOpp <$> SFcompare x y.
Proof.
  destruct x as [[]|[]| |[] mx ex], y as [[]|[]| |[] my ey]; try reflexivity;
    simpl; rewrite (Z.compare_antisym ey ex);
    destruct (ey ?= ex) eqn:E; simpl; try reflexivity;
    rewrite (Pos.compare_cont_antisym _ _ Eq); simpl;
    try rewrite CompOpp_involutive; reflexivity.
Qed.

Lemma SFcompare_is_Some (x y : spec_float) :
  is_nan x = false → is_nan y = false → ∃ c, SFcompare x y = Some c.
Proof. destruct x, y; simpl; eauto; congruence. Qed.

Lemma SFltb_not_SFleb (x y : spec_float) :
  SFltb x y = true → SFleb y x = false.
Proof.
  unfold SFltb, SFleb. rewrite (SFcompare_antisym x y).
  destruct (SFcompare x y) as [[]|]; simpl; congruence.
Qed.

Lemma not_SFleb_SFltb (x y : spec_float) :
  is_nan x = false → is_nan y = false → SFleb y x = false → SFltb x y = true.
Proof.
  intros Hx Hy. unfold SFltb, SFleb. rewrite (SFcompare_antisym x y).
  destruct (SFcompare_is_Some x y Hx Hy) as [c ->]. by destruct c.
Qed.

Lemma float_gt_nan (n : Z) : float_gt S754_nan n = false.
Proof. unfold float_gt, SFltb. by destruct (of_int n). Qed.

Lemma float_le_nan (n : Z) : float_le S754_nan n = false.
Proof. reflexivity. Qed.

Lemma float_gt_not_le (v : spec_float) (n : Z) :
  float_gt v n = true → float_le v n = false.
Proof. apply SFltb_not_SFleb. Qed.

Lemma float_not_le_gt_50 (v : spec_float) :
  is_nan v = false → float_le v 50 = false → float_gt v 50 = true.
Proof. intros Hv. by apply not_SFleb_SFltb. Qed.

(** A value above 50 is not at most 20. *)
Lemma float_gt_50_not_le_20 (v : spec_float) :
  float_gt v 50 = true → float_le v 20 = false.
Proof.
  unfold float_gt, float_le, SFltb, SFleb. rewrite of_int_20, of_int_50.
  destruct v as [[]|[]| |[] m e]; cbn [SFcompare]; try congruence.
  destruct (Z.compare_spec (-47) e), (Z.compare_spec e (-48));
    try lia; congruence.
Qed.

(** For an index within the list, [position] is the index itself. *)
Lemma position_in_range (n : nat) (i : Z) :
  0 ≤ i < Z.of_nat n → position n i = Some (Z.to_nat i).
Proof.
  intros H. unfold position.
  destruct (Z.ltb_spec i 0); [lia|].
  destruct (Z.leb_spec 0 i), (Z.ltb_spec i (Z.of_nat n)); simpl; try lia; done.
Qed.

(** The test [0 <= record_id < len(records)] of [edit_record] and
    [delete_record], on the record number typed in. *)
Lemma in_range_true (k : Z) (n : nat) :
  1 ≤ k ≤ Z.of_nat n → (0 <=? k - 1) && (k - 1 <? Z.of_nat n) = true.
Proof.
  intros H. destruct (Z.leb_spec 0 (k - 1)), (Z.ltb_spec (k - 1) (Z.of_nat n));
    simpl; try lia; done.
Qed.

Lemma in_range_false (k : Z) (n : nat) :
  k < 1 ∨ Z.of_nat n < k → (0 <=? k - 1) && (k - 1 <? Z.of_nat n) = false.
Proof.
  intros H. destruct (Z.leb_spec 0 (k - 1)), (Z.ltb_spec (k - 1) (Z.of_nat n));
    simpl; try lia; done.
Qed.

(** ** Running the business functions

    One equation for each operation of the session followed by the rest of
    a function. *)

Section run.
Context {B : Type}.

Lemma run_len (g : Z → M B) σ :
  (len ≫= g) σ = g (Z.of_nat (length (records σ))) σ.
Proof. reflexivity. Qed.

Lemma run_lift_Ok {A} (r : result A) (g : A → M B) σ a :
  r = Ok a → (lift r ≫= g) σ = g a σ.
Proof. by intros ->. Qed.

Lemma run_lift_Raise {A} (r : result A) (g : A → M B) σ e :
  r = Raise e → (lift r ≫= g) σ = (Raise e, σ).
Proof. by intros ->. Qed.

Lemma run_input prompt (g : string → M B) σ line rest :
  stdin σ = line :: rest →
  (input prompt ≫= g) σ
  = g line (State (records σ) rest (stdout σ ++ [Prompt prompt]) (files σ)).
Proof. intros H. unfold mbind, M_bind, input. by rewrite H. Qed.

Lemma run_print line (g : unit → M B) σ :
  (print line ≫= g) σ = g () (emit (Print line) σ).
Proof. reflexivity. Qed.

Lemma run_append r (g : unit → M B) σ :
  (append r ≫= g) σ = g () (with_records (λ l, l ++ [r]) σ).
Proof. reflexivity. Qed.

Lemma run_assign i h (g : unit → M B) σ :
  (assign i h ≫= g) σ = g () (with_records (λ l, alter h (Z.to_nat i) l) σ).
Proof. reflexivity. Qed.

Lemma run_getitem i (g : record → M B) σ r :
  0 ≤ i → records σ !! Z.to_nat i = Some r → (getitem i ≫= g) σ = g r σ.
Proof.
  intros Hi Hr. unfold mbind at 1, M_bind, getitem.
  rewrite position_in_range; [simpl; by rewrite Hr|].
  apply lookup_lt_Some in Hr. lia.
Qed.

Lemma run_setitem i r (g : unit → M B) σ :
  0 ≤ i < Z.of_nat (length (records σ)) →
  (setitem i r ≫= g) σ = g () (with_records (λ l, <[Z.to_nat i := r]> l) σ).
Proof.
  intros Hi. unfold mbind, M_bind, setitem. by rewrite position_in_range.
Qed.

Lemma run_pop i (g : record → M B) σ r :
  0 ≤ i → records σ !! Z.to_nat i = Some r →
  (pop i ≫= g) σ = g r (with_records (λ l, delete (Z.to_nat i) l) σ).
Proof.
  intros Hi Hr. unfold mbind at 1, M_bind, pop.
  rewrite position_in_range; [simpl; by rewrite Hr|].
  apply lookup_lt_Some in Hr. lia.
Qed.
End run.

(** C5, as amended. For every store and every record number outside
    [1, length], [edit_record] and [delete_record] do not fail: they raise
    no exception, print "Invalid record number." and return normally, and
    they leave the list, its length and its contents, as it was; nothing
    more is read from the terminal. *)
Theorem out_of_range_rejected (σ : state) (s : string) (k : Z) (rest : list string) :
  stdin σ = s :: rest →
  int s = Ok k →
  k < 1 ∨ Z.of_nat (length (records σ)) < k →
  edit_record σ
  = (Ok (),
     State (records σ) rest
       (stdout σ ++
          [Prompt ("Enter record number to edit (1 to "
                     +:+ pretty (Z.of_nat (length (records σ))) +:+ "): ");
           Print "Invalid record number."])
       (files σ))
  ∧ delete_record σ
  = (Ok (),
     State (records σ) rest
       (stdout σ ++
          [Prompt ("Enter record number to delete (1 to "
                     +:+ pretty (Z.of_nat (length (records σ))) +:+ "): ");
           Print "Invalid record number."])
       (files σ)).
Proof.
  intros Hin Hint Hk. apply in_range_false in Hk.
  split.
  - unfold edit_record.
    rewrite run_len, (run_input _ _ _ _ _ Hin), (run_lift_Ok _ _ _ _ Hint).
    rewrite run_len. cbn [records]. rewrite Hk.
    unfold print, emit; cbn [records stdin stdout files].
    by rewrite <- app_assoc.
  - unfold delete_record.
    rewrite run_len, (run_input _ _ _ _ _ Hin), (run_lift_Ok _ _ _ _ Hint).
    rewrite run_len. cbn [records]. rewrite Hk.
    unfold print, emit; cbn [records stdin stdout files].
    by rewrite <- app_assoc.
Qed.

(** ** [edit_record] at a record number within the list *)

Lemma alter_lookup_insert {A} (h : A → A) (l : list A) (i : nat) (x : A) :
  l !! i = Some x → alter h i l = <[i := h x]> l.
Proof.
  intros H. rewrite list_insert_alter. apply list_alter_ext; [|done].
  intros y Hy. congruence.
Qed.

Section edit.
Variables (σ : state) (s throughput_in capacity_in : string)
          (rest : list string) (k : Z) (current_record : record).
Hypothesis Hstdin : stdin σ = s :: throughput_in :: capacity_in :: rest.
Hypothesis Hint : int s = Ok k.
Hypothesis Hk : 1 ≤ k.
Hypothesis Hcur : records σ !! Z.to_nat (k - 1) = Some current_record.

Lemma edit_in_range : 1 ≤ k ≤ Z.of_nat (length (records σ)).
Proof using Hk Hcur. apply lookup_lt_Some in Hcur. lia. Qed.

(** The state in which [float(throughput)] is evaluated. *)
Lemma edit_record_prefix :
  edit_record σ
  = (v ← lift (float (PyStr throughput_in));
     if float_gt v 50 && negb (isinstance_FormattedPipelineRecord current_record) then
       setitem (k - 1)
         (FormattedPipelineRecord (PyStr throughput_in) (PyStr capacity_in));;
       print "Record updated and converted to FormattedPipelineRecord."
     else
       v ← lift (float (PyStr throughput_in));
       if float_le v 50 && isinstance_FormattedPipelineRecord current_record then
         setitem (k - 1)
           (PipelineRecord (PyStr throughput_in) (PyStr capacity_in));;
         print "Record updated and converted to PipelineRecord."
       else
         print "Record updated successfully.")
      (State
         (<[Z.to_nat (k - 1) :=
              overwritten throughput_in capacity_in current_record]> (records σ))
         rest (stdout σ ++ edit_prompts (records σ) current_record) (files σ)).
Proof using Hstdin Hint Hk Hcur.
  pose proof edit_in_range as Hr.
  unfold edit_record.
  rewrite run_len, (run_input _ _ _ _ _ Hstdin), (run_lift_Ok _ _ _ _ Hint).
  rewrite run_len. cbn [records]. rewrite (in_range_true _ _ Hr).
  rewrite (run_getitem _ _ _ current_record) by (done || lia).
  erewrite run_input by reflexivity. cbn [records stdin stdout files].
  erewrite run_input by reflexivity. cbn [records stdin stdout files].
  rewrite !run_assign. unfold with_records. cbn [records stdin stdout files].
  rewrite list_alter_alter_eq, (alter_lookup_insert _ _ _ _ Hcur).
  unfold edit_prompts. rewrite <- !app_assoc. reflexivity.
Qed.

(** An unreadable throughput: the exception leaves [float] after the two
    attributes have been assigned. *)
Lemma edit_record_Raise e :
  float (PyStr throughput_in) = Raise e →
  edit_record σ
  = (Raise e,
     State
       (<[Z.to_nat (k - 1) :=
            overwritten throughput_in capacity_in current_record]> (records σ))
       rest (stdout σ ++ edit_prompts (records σ) current_record) (files σ)).
Proof using Hstdin Hint Hk Hcur.
  intros Hf. rewrite edit_record_prefix.
  by rewrite (run_lift_Raise _ _ _ _ Hf).
Qed.

(** A readable throughput: the record the slot holds when [edit_record]
    returns. *)
Lemma edit_record_Ok v :
  float (PyStr throughput_in) = Ok v →
  ∃ line,
    edit_record σ
    = (Ok (),
       State
         (<[Z.to_nat (k - 1) :=
              if float_gt v 50
                 && negb (isinstance_FormattedPipelineRecord current_record)
              then FormattedPipelineRecord (PyStr throughput_in) (PyStr capacity_in)
              else if float_le v 50
                      && isinstance_FormattedPipelineRecord current_record
              then PipelineRecord (PyStr throughput_in) (PyStr capacity_in)
              else overwritten throughput_in capacity_in current_record]> (records σ))
         rest (stdout σ ++ edit_prompts (records σ) current_record ++ [Print line]) (files σ)).
Proof using Hstdin Hint Hk Hcur.
  pose proof edit_in_range as Hr.
  intros Hf. rewrite edit_record_prefix.
  rewrite (run_lift_Ok _ _ _ _ Hf).
  destruct (float_gt v 50 && _).
  - rewrite run_setitem by (cbn [records]; rewrite length_insert; lia).
    eexists. unfold print, emit, with_records. cbn [records stdin stdout files].
    by rewrite list_insert_insert_eq, <- app_assoc.
  - rewrite (run_lift_Ok _ _ _ _ Hf). destruct (float_le v 50 && _).
    + rewrite run_setitem by (cbn [records]; rewrite length_insert; lia).
      eexists. unfold print, emit, with_records.
      cbn [records stdin stdout files].
      by rewrite list_insert_insert_eq, <- app_assoc.
    + eexists. unfold print, emit. cbn [records stdin stdout files].
      by rewrite <- app_assoc.
Qed.
End edit.

(** [float] on text raises nothing but [ValueError]. *)
Lemma float_text_unreadable (s : string) :
  is_Ok (float (PyStr s)) = false → float (PyStr s) = Raise ValueError.
Proof. unfold float. by destruct (float_of_string s). Qed.

Lemma is_Ok_true {A} (r : result A) : is_Ok r = true → ∃ a, r = Ok a.
Proof. destruct r; [eauto|done]. Qed.

Lemma out_of_range_rejected_witness :
  let σ := session [PipelineRecord (PyStr "10") (PyStr "5")] ["2"; "7"] in
  int "2" = Ok 2 ∧ Z.of_nat (length (records σ)) < 2 ∧
  edit_record σ
  = (Ok (),
     State (records σ) ["7"]
       [Prompt "Enter record number to edit (1 to 1): ";
        Print "Invalid record number."] ∅) ∧
  delete_record σ
  = (Ok (),
     State (records σ) ["7"]
       [Prompt "Enter record number to delete (1 to 1): ";
        Print "Invalid record number."] ∅).
Proof.
  intros σ.
  assert (Hint : int "2" = Ok 2) by (vm_compute; reflexivity).
  assert (Hk : Z.of_nat (length (records σ)) < 2) by (simpl; lia).
  split; [exact Hint|]. split; [exact Hk|].
  exact (out_of_range_rejected σ "2" 2 ["7"] eq_refl Hint (or_intror Hk)).
Defined.

(** C5, as stated, fails: with a record number outside the list,
    [edit_record] and [delete_record] raise nothing and return as a call
    that succeeds does. *)
Lemma out_of_range_returns_normally :
  let σ := session [PipelineRecord (PyStr "10") (PyStr "5")] ["2"; "7"] in
  int "2" = Ok 2 ∧
  Z.of_nat (length (records σ)) < 2 ∧
  (edit_record σ).1 = Ok () ∧
  is_Ok (edit_record σ).1 = true ∧
  (delete_record σ).1 = Ok () ∧
  is_Ok (delete_record σ).1 = true ∧
  (edit_record (session [PipelineRecord (PyStr "10") (PyStr "5")]
                  ["1"; "7"; "7"])).1
  = (edit_record σ).1.
Proof. repeat split; vm_compute; reflexivity. Qed.

(** C1, as amended. For every store and every record number within
    [1, length]: when the new throughput is not readable as a number,
    [edit_record] raises [ValueError]; the list keeps its length and every
    record at another position, and the record at that position keeps its
    class, but its two attributes already hold the two texts typed in. The
    available capacity is not read as a number: with a readable throughput
    the call returns normally whatever the capacity text is. *)
Theorem edit_record_unreadable_throughput
    (σ : state) (s throughput_in capacity_in : string) (rest : list string) (k : Z) :
  stdin σ = s :: throughput_in :: capacity_in :: rest →
  int s = Ok k →
  1 ≤ k ≤ Z.of_nat (length (records σ)) →
  (is_Ok (float (PyStr throughput_in)) = false →
   ∃ σ' current_record edited,
     edit_record σ = (Raise ValueError, σ') ∧
     length (records σ') = length (records σ) ∧
     (∀ j : nat, j ≠ Z.to_nat (k - 1) → records σ' !! j = records σ !! j) ∧
     records σ !! Z.to_nat (k - 1) = Some current_record ∧
     records σ' !! Z.to_nat (k - 1) = Some edited ∧
     isinstance_FormattedPipelineRecord edited
       = isinstance_FormattedPipelineRecord current_record ∧
     throughput edited = PyStr throughput_in ∧
     available_capacity edited = PyStr capacity_in) ∧
  (is_Ok (float (PyStr throughput_in)) = true →
   ∃ σ', edit_record σ = (Ok (), σ')).
Proof.
  intros Hin Hint Hk.
  destruct (lookup_lt_is_Some_2 (records σ) (Z.to_nat (k - 1))) as [cur Hcur];
    [lia|].
  split.
  - intros Hf%float_text_unreadable.
    eexists _, cur, (overwritten throughput_in capacity_in cur).
    split; [apply (edit_record_Raise σ s throughput_in capacity_in rest k cur);
            (done || lia)|].
    cbn [records]. rewrite length_insert.
    split; [done|]. split; [intros j Hj; by rewrite list_lookup_insert_ne|].
    split; [done|]. split.
    + apply list_lookup_insert_eq. by eapply lookup_lt_Some.
    + by destruct cur.
  - intros [v Hf]%is_Ok_true.
    destruct (edit_record_Ok σ s throughput_in capacity_in rest k cur)
      with (v := v) as [line ->]; try done; [lia|]. eauto.
Qed.

Lemma edit_record_unreadable_throughput_witness :
  let σ := session [FormattedPipelineRecord (PyStr "60") (PyStr "5")]
             ["1"; "sixty"; "7"] in
  ∃ σ' current_record edited,
    edit_record σ = (Raise ValueError, σ') ∧
    length (records σ') = length (records σ) ∧
    (∀ j : nat, j ≠ Z.to_nat (1 - 1) → records σ' !! j = records σ !! j) ∧
    records σ !! Z.to_nat (1 - 1) = Some current_record ∧
    records σ' !! Z.to_nat (1 - 1) = Some edited ∧
    isinstance_FormattedPipelineRecord edited
      = isinstance_FormattedPipelineRecord current_record ∧
    throughput edited = PyStr "sixty" ∧
    available_capacity edited = PyStr "7".
Proof.
  intros σ.
  refine (proj1 (edit_record_unreadable_throughput σ "1" "sixty" "7" [] 1
                   eq_refl _ _) _).
  - vm_compute; reflexivity.
  - simpl; lia.
  - vm_compute; reflexivity.
Defined.

(** C1, as stated, fails: a record number within the list and a throughput
    that is no number make [edit_record] fail with the record already
    changed; a capacity that is no number does not make it fail. *)
Lemma edit_record_not_atomic :
  let σ := session [PipelineRecord (PyStr "10") (PyStr "5")] ["1"; "abc"; "7"] in
  let τ := session [PipelineRecord (PyStr "10") (PyStr "5")] ["1"; "30"; "abc"] in
  int "1" = Ok 1 ∧
  is_Ok (float (PyStr "abc")) = false ∧
  (edit_record σ).1 = Raise ValueError ∧
  records (edit_record σ).2 = [PipelineRecord (PyStr "abc") (PyStr "7")] ∧
  records (edit_record σ).2 ≠ records σ ∧
  (edit_record τ).1 = Ok () ∧
  records (edit_record τ).2 = [PipelineRecord (PyStr "30") (PyStr "abc")].
Proof. vm_compute. repeat split; discriminate. Qed.

(** ** [add_record] *)

Lemma add_record_Raise (σ : state) (throughput_in capacity_in : string)
    (rest : list string) (e : exn) :
  stdin σ = throughput_in :: capacity_in :: rest →
  float (PyStr throughput_in) = Raise e →
  add_record σ
  = (Raise e,
     State (records σ) rest
       (stdout σ ++ [Prompt "Enter throughput (1000 m3/d): ";
                     Prompt "Enter available capacity (1000 m3/d): "])
       (files σ)).
Proof.
  intros Hin Hf. unfold add_record.
  rewrite (run_input _ _ _ _ _ Hin).
  erewrite run_input by reflexivity. cbn [records stdin stdout files].
  rewrite (run_lift_Raise _ _ _ _ Hf). by rewrite <- app_assoc.
Qed.

Lemma add_record_Ok (σ : state) (throughput_in capacity_in : string)
    (rest : list string) (v : spec_float) :
  stdin σ = throughput_in :: capacity_in :: rest →
  float (PyStr throughput_in) = Ok v →
  add_record σ
  = (Ok (),
     State
       (records σ ++
          [if float_gt v 50
           then FormattedPipelineRecord (PyStr throughput_in) (PyStr capacity_in)
           else PipelineRecord (PyStr throughput_in) (PyStr capacity_in)])
       rest
       (stdout σ ++ [Prompt "Enter throughput (1000 m3/d): ";
                     Prompt "Enter available capacity (1000 m3/d): ";
                     Print "Record added successfully."])
       (files σ)).
Proof.
  intros Hin Hf. unfold add_record.
  rewrite (run_input _ _ _ _ _ Hin).
  erewrite run_input by reflexivity. cbn [records stdin stdout files].
  rewrite (run_lift_Ok _ _ _ _ Hf), run_append.
  unfold print, emit, with_records. cbn [records stdin stdout files].
  by rewrite <- !app_assoc.
Qed.

(** C2, as amended. [add_record] reads the throughput as a number and
    nothing else: for every store and every pair of texts, when the
    throughput is not readable as a number the call raises [ValueError] and
    the list, its length and its contents, is as before the call; when it is
    readable, a record holding the two texts is appended whatever the
    available capacity text is, so a record with a non-numeric capacity can
    be appended. *)
Theorem add_record_validates_throughput
    (σ : state) (throughput_in capacity_in : string) (rest : list string) :
  stdin σ = throughput_in :: capacity_in :: rest →
  (is_Ok (float (PyStr throughput_in)) = false →
   ∃ σ', add_record σ = (Raise ValueError, σ') ∧ records σ' = records σ) ∧
  (∀ v, float (PyStr throughput_in) = Ok v →
   ∃ σ', add_record σ = (Ok (), σ') ∧
     records σ'
     = records σ ++
         [if float_gt v 50
          then FormattedPipelineRecord (PyStr throughput_in) (PyStr capacity_in)
          else PipelineRecord (PyStr throughput_in) (PyStr capacity_in)]).
Proof.
  intros Hin. split.
  - intros Hf%float_text_unreadable.
    eexists. split; [eapply add_record_Raise; eassumption|reflexivity].
  - intros v Hf.
    eexists. split; [eapply add_record_Ok; eassumption|reflexivity].
Qed.

Lemma add_record_validates_throughput_witness :
  let σ := session [PipelineRecord (PyStr "10") (PyStr "5")] ["abc"; "7"] in
  ∃ σ', add_record σ = (Raise ValueError, σ') ∧ records σ' = records σ.
Proof.
  intros σ.
  refine (proj1 (add_record_validates_throughput σ "abc" "7" [] eq_refl) _).
  vm_compute; reflexivity.
Defined.

(** C2, as stated, fails: a capacity that is no number is accepted and
    stored. *)
Lemma add_record_stores_unreadable_capacity :
  let σ := session [] ["10"; "abc"] in
  is_Ok (float (PyStr "abc")) = false ∧
  (add_record σ).1 = Ok () ∧
  records (add_record σ).2 = [PipelineRecord (PyStr "10") (PyStr "abc")] ∧
  length (records (add_record σ).2) ≠ length (records σ).
Proof. vm_compute. repeat split; discriminate. Qed.

(** ** [delete_record] *)

(** [delete_record] at a record number within the list. *)
Lemma delete_record_run
    (σ : state) (s : string) (rest : list string) (k : Z) :
  stdin σ = s :: rest →
  int s = Ok k →
  1 ≤ k ≤ Z.of_nat (length (records σ)) →
  ∃ out,
    delete_record σ
    = (Ok (),
       State (delete (Z.to_nat (k - 1)) (records σ)) rest (stdout σ ++ out)
         (files σ)).
Proof.
  intros Hin Hint Hk.
  destruct (lookup_lt_is_Some_2 (records σ) (Z.to_nat (k - 1))) as [r Hr];
    [lia|].
  eexists. unfold delete_record.
  rewrite run_len, (run_input _ _ _ _ _ Hin), (run_lift_Ok _ _ _ _ Hint).
  rewrite run_len. cbn [records]. rewrite (in_range_true _ _ Hk).
  rewrite (run_pop _ _ _ r) by (done || lia).
  unfold print, emit, with_records. cbn [records stdin stdout files].
  by rewrite <- app_assoc.
Qed.

(** C7. For every store of length n ≥ 1 and every record number i within
    [1, n], [delete_record] returns normally and removes the record at
    position i and no other: the list becomes the records before position i
    followed by the records after it, in their order, so its length is
    n - 1, and the record read at a position j of the new list is the one
    that stood at position j (before i) or j + 1 (from i on) of the old
    list, never the one that stood at position i. Positions are counted
    from 0 in the list: record number i is position i - 1. *)
Theorem delete_record_removes_one
    (σ : state) (s : string) (rest : list string) (k : Z) :
  stdin σ = s :: rest →
  int s = Ok k →
  1 ≤ k ≤ Z.of_nat (length (records σ)) →
  ∃ σ',
    delete_record σ = (Ok (), σ') ∧
    records σ'
    = take (Z.to_nat (k - 1)) (records σ) ++ drop (Z.to_nat k) (records σ) ∧
    Z.of_nat (length (records σ')) = Z.of_nat (length (records σ)) - 1 ∧
    ∀ j : nat,
      let i := if decide (j < Z.to_nat (k - 1))%nat then j else S j in
      i ≠ Z.to_nat (k - 1) ∧ records σ' !! j = records σ !! i.
Proof.
  intros Hin Hint Hk.
  destruct (delete_record_run σ s rest k Hin Hint Hk) as [out ->].
  eexists. split; [reflexivity|]. cbn [records].
  split; [|split].
  - rewrite delete_take_drop. do 2 f_equal. lia.
  - rewrite length_delete by (apply lookup_lt_is_Some_2; lia). lia.
  - intros j. cbv zeta. split; [case_decide; lia|apply list_lookup_delete].
Qed.

Lemma delete_record_removes_one_witness :
  let a := PipelineRecord (PyStr "10") (PyStr "5") in
  let b := FormattedPipelineRecord (PyStr "60") (PyStr "5") in
  let c := PipelineRecord (PyStr "10") (PyStr "5") in
  let σ := session [a; b; c] ["2"] in
  ∃ σ',
    delete_record σ = (Ok (), σ') ∧
    records σ' = take (Z.to_nat (2 - 1)) [a; b; c] ++ drop (Z.to_nat 2) [a; b; c] ∧
    Z.of_nat (length (records σ')) = Z.of_nat (length (records σ)) - 1 ∧
    ∀ j : nat,
      let i := if decide (j < Z.to_nat (2 - 1))%nat then j else S j in
      i ≠ Z.to_nat (2 - 1) ∧ records σ' !! j = records σ !! i.
Proof.
  intros a b c σ.
  refine (delete_record_removes_one σ "2" [] 2 eq_refl _ _).
  - vm_compute; reflexivity.
  - simpl; lia.
Defined.

(** ** The class of an edited record *)

(** For a new throughput that reads as a number other than NaN, the record
    [edit_record] leaves in the slot has the class the comparison with 50
    gives, whatever the class of the record before. *)
Lemma edit_record_class
    (σ : state) (s throughput_in capacity_in : string) (rest : list string)
    (k : Z) (v : spec_float) :
  stdin σ = s :: throughput_in :: capacity_in :: rest →
  int s = Ok k →
  1 ≤ k ≤ Z.of_nat (length (records σ)) →
  float (PyStr throughput_in) = Ok v →
  is_nan v = false →
  ∃ σ',
    edit_record σ = (Ok (), σ') ∧
    records σ'
    = <[Z.to_nat (k - 1) :=
          if float_gt v 50
          then FormattedPipelineRecord (PyStr throughput_in) (PyStr capacity_in)
          else PipelineRecord (PyStr throughput_in) (PyStr capacity_in)]>
        (records σ).
Proof.
  intros Hin Hint Hk Hf Hv.
  destruct (lookup_lt_is_Some_2 (records σ) (Z.to_nat (k - 1))) as [cur Hcur];
    [lia|].
  destruct (edit_record_Ok σ s throughput_in capacity_in rest k cur)
    with (v := v) as [line ->]; try done; [lia|].
  eexists. split; [reflexivity|]. cbn [records]. f_equal.
  destruct (float_gt v 50) eqn:Hgt.
  - rewrite (float_gt_not_le _ _ Hgt). by destruct cur.
  - destruct (float_le v 50) eqn:Hle; [by destruct cur|].
    apply (float_not_le_gt_50 v Hv) in Hle. congruence.
Qed.

(** C6, at the input where the code departs from it. "nan" reads as a
    number, NaN, which is not greater than 50; [add_record] makes a plain
    record of it, and [edit_record] turns a plain record into a formatted
    one for 60 and back for 20, but leaves a formatted record formatted when
    the new throughput is "nan": neither of its two tests holds for NaN. *)
Theorem edit_record_nan_keeps_formatted :
  let formatted := FormattedPipelineRecord (PyStr "60") (PyStr "5") in
  float (PyStr "nan") = Ok S754_nan ∧
  float_gt S754_nan 50 = false ∧
  float_le S754_nan 50 = false ∧
  (edit_record (session [formatted] ["1"; "nan"; "5"])).1 = Ok () ∧
  records (edit_record (session [formatted] ["1"; "nan"; "5"])).2
  = [FormattedPipelineRecord (PyStr "nan") (PyStr "5")] ∧
  records (edit_record (session [formatted] ["1"; "20"; "5"])).2
  = [PipelineRecord (PyStr "20") (PyStr "5")] ∧
  records (add_record (session [] ["nan"; "5"])).2
  = [PipelineRecord (PyStr "nan") (PyStr "5")].
Proof. vm_compute. repeat split. Qed.

(** ** The records of the store and the threshold *)

Lemma store_ok_Forall (l : list record) :
  store_ok l = true ↔ Forall (λ r, record_ok r = true) l.
Proof.
  unfold store_ok. induction l as [|r l IH]; simpl.
  - split; [constructor|done].
  - rewrite andb_true_iff, IH, Forall_cons. done.
Qed.

Lemma record_ok_new (t c : string) (v : spec_float) :
  float (PyStr t) = Ok v →
  record_ok (if float_gt v 50
             then FormattedPipelineRecord (PyStr t) (PyStr c)
             else PipelineRecord (PyStr t) (PyStr c)) = true.
Proof.
  intros Hf. unfold record_ok.
  destruct (float_gt v 50) eqn:Hgt; cbn [throughput]; rewrite Hf;
    apply bool_decide_eq_true; by rewrite Hgt.
Qed.

(** [add_record] keeps the store within the threshold rule. *)
Lemma add_record_store_ok
    (σ : state) (throughput_in capacity_in : string) (rest : list string)
    (v : spec_float) :
  stdin σ = throughput_in :: capacity_in :: rest →
  float (PyStr throughput_in) = Ok v →
  store_ok (records σ) = true →
  store_ok (records (add_record σ).2) = true.
Proof.
  intros Hin Hf Hok. rewrite (add_record_Ok _ _ _ _ _ Hin Hf). cbn [snd records].
  apply store_ok_Forall, Forall_app. split; [by apply store_ok_Forall|].
  apply Forall_singleton. by apply record_ok_new.
Qed.

(** So does [delete_record]. *)
Lemma delete_record_store_ok
    (σ : state) (s : string) (rest : list string) (k : Z) :
  stdin σ = s :: rest →
  int s = Ok k →
  1 ≤ k ≤ Z.of_nat (length (records σ)) →
  store_ok (records σ) = true →
  store_ok (records (delete_record σ).2) = true.
Proof.
  intros Hin Hint Hk Hok%store_ok_Forall.
  destruct (delete_record_run σ s rest k Hin Hint Hk) as [out ->].
  cbn [snd records]. rewrite delete_take_drop.
  apply store_ok_Forall, Forall_app.
  split; [by apply Forall_take|by apply Forall_drop].
Qed.

(** And [edit_record], unless the new throughput reads as NaN. *)
Lemma edit_record_store_ok
    (σ : state) (s throughput_in capacity_in : string) (rest : list string)
    (k : Z) (v : spec_float) :
  stdin σ = s :: throughput_in :: capacity_in :: rest →
  int s = Ok k →
  1 ≤ k ≤ Z.of_nat (length (records σ)) →
  float (PyStr throughput_in) = Ok v →
  is_nan v = false →
  store_ok (records σ) = true →
  store_ok (records (edit_record σ).2) = true.
Proof.
  intros Hin Hint Hk Hf Hv Hok%store_ok_Forall.
  destruct (edit_record_class _ _ _ _ _ _ _ Hin Hint Hk Hf Hv) as (σ' & He & Hr).
  rewrite He. cbn [snd]. rewrite Hr.
  apply store_ok_Forall, Forall_insert; [done|]. by apply record_ok_new.
Qed.

(** C10, at the input where the code departs from it. From the empty list,
    [add_record] with "60" and then [edit_record] of record 1 with "nan"
    both return normally; the list is within the threshold rule after the
    first and not after the second, which leaves a formatted record whose
    throughput, NaN, is not greater than 50. *)
Theorem edit_record_nan_breaks_store_ok :
  let σ0 := session [] ["60"; "5"; "1"; "nan"; "5"] in
  let σ1 := (add_record σ0).2 in
  let σ2 := (edit_record σ1).2 in
  (add_record σ0).1 = Ok () ∧
  store_ok (records σ1) = true ∧
  (edit_record σ1).1 = Ok () ∧
  records σ2 = [FormattedPipelineRecord (PyStr "nan") (PyStr "5")] ∧
  float (throughput (FormattedPipelineRecord (PyStr "nan") (PyStr "5")))
  = Ok S754_nan ∧
  float_gt S754_nan 50 = false ∧
  store_ok (records σ2) = false.
Proof. vm_compute. repeat split. Qed.

(** ** [load_data_from_file] *)

(** A row reads well when the loop body builds a record from it. *)
Lemma row_record_Ok (row : gmap string pyval) (r : record) :
  row_record row = Ok r →
  ∃ t c v,
    row !! "Throughput (1000 m3/d)" = Some t ∧
    row !! "Available Capacity (1000 m3/d)" = Some c ∧
    float t = Ok v ∧
    r = if float_gt v 50 then FormattedPipelineRecord t c else PipelineRecord t c.
Proof.
  unfold row_record, row_getitem.
  destruct (row !! "Throughput (1000 m3/d)") as [t|]; [|done].
  cbn [mbind result_bind]. destruct (float t) as [v|] eqn:Hf; [|done].
  cbn [mbind result_bind].
  destruct (row !! "Available Capacity (1000 m3/d)") as [c|];
    [|by destruct (float_gt v 50)].
  intros H. exists t, c, v. repeat split; [done|].
  destruct (float_gt v 50); by injection H as <-.
Qed.

(** A throughput that does not read as a number makes the loop body raise. *)
Lemma row_record_unreadable (row : gmap string pyval) (t : pyval) (e : exn) :
  row !! "Throughput (1000 m3/d)" = Some t →
  float t = Raise e →
  row_record row = Raise e.
Proof.
  intros Ht Hf. unfold row_record, row_getitem.
  rewrite Ht. cbn [mbind result_bind]. by rewrite Hf.
Qed.


(** Rows that read well are taken one by one while fewer than 100 records
    have been gathered. *)
Lemma load_rows_below (ending : option exn)
    (rows tail : list (gmap string pyval)) (recs : list record) :
  Forall2 (λ row r, row_record row = Ok r) rows recs →
  ∀ acc,
    (length acc + length recs < 100)%nat →
    load_rows ending (rows ++ tail) acc = load_rows ending tail (acc ++ recs).
Proof.
  induction 1 as [|row r rows recs Hr _ IH]; intros acc Hlen.
  - by rewrite app_nil_r.
  - cbn [length] in Hlen. cbn [app load_rows]. rewrite Hr.
    destruct (Z.leb_spec 100 (Z.of_nat (length (acc ++ [r])))) as [Hge|_].
    + rewrite length_app in Hge. cbn [length] in Hge. lia.
    + rewrite IH by (rewrite length_app; cbn [length]; lia).
      by rewrite <- app_assoc.
Qed.

(** The loop stops, with no exception, at the hundredth record. *)
Lemma load_rows_full (ending : option exn)
    (rows tail : list (gmap string pyval)) (recs : list record) :
  Forall2 (λ row r, row_record row = Ok r) rows recs →
  ∀ acc,
    recs ≠ [] →
    (length acc + length recs = 100)%nat →
    load_rows ending (rows ++ tail) acc = (acc ++ recs, None).
Proof.
  induction 1 as [|row r rows recs Hr Hrs IH]; intros acc Hne Hlen; [done|].
  cbn [length] in Hlen. cbn [app load_rows]. rewrite Hr.
  destruct (Z.leb_spec 100 (Z.of_nat (length (acc ++ [r])))) as [Hge|Hlt];
    rewrite length_app in *; cbn [length] in *.
  - destruct recs; [done|]. cbn [length] in Hlen. lia.
  - rewrite IH; [by rewrite <- app_assoc| |rewrite length_app; cbn [length]; lia].
    intros ->. cbn [length] in Hlen. lia.
Qed.

(** The loop never gathers more than 100 records. *)
Lemma load_rows_at_most (ending : option exn) (rows : list (gmap string pyval)) :
  ∀ acc,
    (length acc < 100)%nat → (length (load_rows ending rows acc).1 ≤ 100)%nat.
Proof.
  induction rows as [|row rows IH]; intros acc Hlen; cbn [load_rows].
  - cbn [fst]. lia.
  - destruct (row_record row) as [r|e]; [|cbn [fst]; lia].
    destruct (Z.leb_spec 100 (Z.of_nat (length (acc ++ [r])))) as [Hge|Hlt];
      rewrite length_app in *; cbn [length] in *.
    + cbn [fst]. rewrite length_app. cbn [length]. lia.
    + apply IH. rewrite length_app. cbn [length]. lia.
Qed.


(** [load_data_from_file] always returns a list, of at most 100 records. *)
Lemma load_data_from_file_returns (file_name : string) (σ : state) :
  ∃ recs σ',
    load_data_from_file file_name σ = (Ok recs, σ') ∧
    (length recs ≤ 100)%nat ∧ records σ' = records σ.
Proof.
  unfold load_data_from_file, open_csv.
  destruct (files σ !! file_name) as [[rows ending]|].
  - pose proof (load_rows_at_most ending rows []) as Hlen.
    destruct (load_rows ending rows []) as [recs [e|]]; cbn [fst] in Hlen.
    + exists recs. destruct e; eexists; (split; [reflexivity|]);
        (split; [apply Hlen; simpl; lia|reflexivity]).
    + exists recs, σ. split; [reflexivity|]. split; [apply Hlen; simpl; lia|done].
  - exists []. eexists. split; [reflexivity|]. split; [simpl; lia|reflexivity].
Qed.

(** A row is well formed exactly when the loop body builds a record from
    it. *)
Lemma well_formed_row_record (row : gmap string pyval) :
  well_formed row = is_Ok (row_record row).
Proof.
  unfold well_formed, row_record, row_getitem.
  destruct (row !! "Throughput (1000 m3/d)") as [t|]; [|done].
  cbn [mbind result_bind].
  destruct (row !! "Available Capacity (1000 m3/d)") as [c|];
    destruct (float t) as [v|]; cbn [mbind result_bind is_Ok]; try done;
    by destruct (float_gt v 50).
Qed.

Lemma row_record_gives (row : gmap string pyval) (r : record) :
  row_record row = Ok r → row_gives row r.
Proof.
  intros (t & c & v & Ht & Hc & Hf & ->)%row_record_Ok.
  exists t, c, v. by destruct (float_gt v 50).
Qed.

Lemma well_formed_prefix_cases (rows : list (gmap string pyval)) :
  (well_formed_prefix rows = rows ∧ forallb well_formed rows = true) ∨
  ∃ bad rest,
    rows = well_formed_prefix rows ++ bad :: rest ∧ well_formed bad = false.
Proof.
  induction rows as [|row rows IH]; [by left|]. cbn [well_formed_prefix forallb].
  destruct (well_formed row) eqn:Hrow; [|right; by exists row, rows].
  destruct IH as [[-> ->]|(bad & rest & Hrows & Hbad)]; [by left|].
  right. exists bad, rest. split; [|done]. cbn [app]. by rewrite <- Hrows.
Qed.

Lemma well_formed_prefix_records (rows : list (gmap string pyval)) :
  ∃ recs,
    Forall2 (λ row r, row_record row = Ok r) (well_formed_prefix rows) recs.
Proof.
  induction rows as [|row rows [recs IH]]; [by exists []|].
  cbn [well_formed_prefix]. destruct (well_formed row) eqn:Hrow; [|by exists []].
  rewrite well_formed_row_record in Hrow. apply is_Ok_true in Hrow as [r Hr].
  exists (r :: recs). by constructor.
Qed.

Lemma load_except_returns (file_name : string) (e : exn) (recs : list record)
    (σ : state) :
  ∃ σ', (load_except file_name e;; ret recs) σ = (Ok recs, σ').
Proof. destruct e; eexists; reflexivity. Qed.

(** C9, as amended. [load_data_from_file] always returns a list of at most
    100 records. For a file that exists, the list holds one record for
    each row before the first row that is not well formed among the first
    100 rows, in the order of the rows, each record with the two texts of
    its row and the class its throughput gives. When the first 100 rows
    (all of them, if there are fewer) are well formed, that is one record
    for each of these rows; the rows after the hundredth are dropped
    without being read, and nothing is written to the terminal unless the
    reading of a file of fewer than 100 rows ends with an exception. *)
Theorem load_data_from_file_first_100 (file_name : string) (σ : state) :
  (∃ recs σ',
     load_data_from_file file_name σ = (Ok recs, σ') ∧ (length recs ≤ 100)%nat) ∧
  ∀ rows ending,
    files σ !! file_name = Some (rows, ending) →
    ∃ recs σ',
      load_data_from_file file_name σ = (Ok recs, σ') ∧
      Forall2 row_gives (well_formed_prefix (take 100 rows)) recs ∧
      (forallb well_formed (take 100 rows) = true →
       Forall2 row_gives (take 100 rows) recs ∧
       length recs = (length rows `min` 100)%nat ∧
       ((100 ≤ length rows)%nat ∨ ending = None → σ' = σ)).
Proof.
  split.
  { destruct (load_data_from_file_returns file_name σ) as (recs & σ' & ? & ? & _).
    eauto. }
  intros rows ending Hfile.
  destruct (well_formed_prefix_records (take 100 rows)) as [recs Hrecs].
  assert (Hgives : Forall2 row_gives (well_formed_prefix (take 100 rows)) recs).
  { eapply Forall2_impl; [exact Hrecs|]. apply row_record_gives. }
  unfold load_data_from_file, open_csv. rewrite Hfile.
  assert (Hrows : load_rows ending rows []
                  = load_rows ending (take 100 rows ++ drop 100 rows) [])
    by (by rewrite take_drop).
  rewrite Hrows. clear Hrows.
  destruct (well_formed_prefix_cases (take 100 rows))
    as [[Hall Hwf]|(bad & rest & Hsplit & Hbad)].
  - rewrite Hall in Hrecs, Hgives.
    assert (Hlen : length recs = (length rows `min` 100)%nat).
    { rewrite <- (Forall2_length _ _ _ Hrecs), length_take. lia. }
    destruct (decide (length rows < 100)%nat) as [Hlt|Hge].
    + rewrite (load_rows_below _ _ _ _ Hrecs) by (simpl; lia).
      rewrite drop_ge by lia. cbn [load_rows app].
      destruct ending as [e|].
      * destruct (load_except_returns file_name e recs σ) as [σ' ->].
        exists recs, σ'. split; [done|]. rewrite Hall. split; [done|].
        intros _. split; [done|]. split; [done|]. intros [?|?]; [lia|done].
      * exists recs, σ. rewrite Hall. by repeat split.
    + rewrite (load_rows_full _ _ _ _ Hrecs); [| |simpl; lia].
      * exists recs, σ. rewrite Hall. by repeat split.
      * intros ->. simpl in Hlen. lia.
  - assert (Hlt : (length recs < 100)%nat).
    { rewrite <- (Forall2_length _ _ _ Hrecs).
      assert (Hl : (length (take 100 rows) ≤ 100)%nat)
        by (rewrite length_take; lia).
      rewrite Hsplit, length_app in Hl. cbn [length] in Hl. lia. }
    assert (Hrows : take 100 rows ++ drop 100 rows
                    = well_formed_prefix (take 100 rows)
                        ++ bad :: (rest ++ drop 100 rows))
      by (rewrite Hsplit at 1; by rewrite <- app_assoc).
    rewrite Hrows. clear Hrows.
    rewrite (load_rows_below _ _ _ _ Hrecs) by (simpl; lia).
    cbn [app load_rows].
    pose proof Hbad as Hraise. rewrite well_formed_row_record in Hraise.
    destruct (row_record bad) as [|e]; [done|].
    destruct (load_except_returns file_name e recs σ) as [σ' ->].
    exists recs, σ'. split; [done|]. split; [done|].
    intros Hwf. exfalso.
    rewrite Hsplit, forallb_app in Hwf. cbn [forallb] in Hwf.
    rewrite Hbad in Hwf. cbn [andb] in Hwf.
    by rewrite andb_false_r in Hwf.
Qed.

Lemma load_data_from_file_first_100_witness :
  let rows := replicate 100 (row_of (PyStr "60") (PyStr "5"))
              ++ [row_of (PyStr "abc") (PyStr "5")] in
  let σ := session_with_file "data.csv" rows in
  forallb well_formed (take 100 rows) = true ∧
  ∃ recs σ',
    load_data_from_file "data.csv" σ = (Ok recs, σ') ∧
    Forall2 row_gives (well_formed_prefix (take 100 rows)) recs ∧
    Forall2 row_gives (take 100 rows) recs ∧
    length recs = (length rows `min` 100)%nat ∧
    σ' = σ.
Proof.
  intros rows σ.
  assert (Hwf : forallb well_formed (take 100 rows) = true)
    by (vm_compute; reflexivity).
  split; [exact Hwf|].
  destruct (proj2 (load_data_from_file_first_100 "data.csv" σ) rows None eq_refl)
    as (recs & σ' & Hload & Hprefix & Hall).
  destruct (Hall Hwf) as (Hrows & Hlen & Hsilent).
  exists recs, σ'. repeat split; try assumption.
  apply Hsilent. by right.
Defined.

(** C9, as stated, fails: a row that is well formed gives no record when
    a row before it is not. *)
Lemma load_data_from_file_skips_well_formed_row :
  let bad := row_of (PyStr "") (PyStr "5") in
  let good := row_of (PyStr "10") (PyStr "5") in
  let σ := session_with_file "data.csv" [bad; good] in
  well_formed bad = false ∧
  well_formed good = true ∧
  load_data_from_file "data.csv" σ
  = (Ok [], emit (PrintExn "An error occurred: " ValueError) σ).
Proof. repeat split; vm_compute; reflexivity. Qed.




(** The records [load_data_from_file] returns are within the threshold
    rule. *)
Lemma load_rows_store_ok (ending : option exn) (rows : list (gmap string pyval)) :
  ∀ acc, store_ok acc = true → store_ok (load_rows ending rows acc).1 = true.
Proof.
  induction rows as [|row rows IH]; intros acc Hacc; cbn [load_rows]; [done|].
  destruct (row_record row) as [r|e] eqn:Hr; [|done].
  assert (Hok : store_ok (acc ++ [r]) = true).
  { apply store_ok_Forall, Forall_app. split; [by apply store_ok_Forall|].
    apply Forall_singleton.
    apply row_record_Ok in Hr as (t & c & v & _ & _ & Hf & ->).
    unfold record_ok.
    destruct (float_gt v 50) eqn:Hgt; cbn [throughput]; rewrite Hf;
      apply bool_decide_eq_true; by rewrite Hgt. }
  destruct (100 <=? _); [done|by apply IH].
Qed.

Lemma load_data_from_file_store_ok (file_name : string) (σ : state) :
  ∃ recs σ',
    load_data_from_file file_name σ = (Ok recs, σ') ∧ store_ok recs = true.
Proof.
  unfold load_data_from_file, open_csv.
  destruct (files σ !! file_name) as [[rows ending]|]; [|by eexists [], _].
  pose proof (load_rows_store_ok ending rows [] eq_refl) as Hok.
  destruct (load_rows ending rows []) as [recs [e|]]; cbn [fst] in Hok.
  - exists recs. by destruct e; eexists.
  - by exists recs, σ.
Qed.

(** ** [aggregate_data] *)

Lemma increment_low (low medium high : Z) :
  increment (categories_of low medium high) "Low (0-20)"
  = Ok (categories_of (low + 1) medium high).
Proof. reflexivity. Qed.

Lemma increment_medium (low medium high : Z) :
  increment (categories_of low medium high) "Medium (20-50)"
  = Ok (categories_of low (medium + 1) high).
Proof. reflexivity. Qed.

Lemma increment_high (low medium high : Z) :
  increment (categories_of low medium high) "High (50+)"
  = Ok (categories_of low medium (high + 1)).
Proof. reflexivity. Qed.

(** The loop adds to each count the number of values that take its branch. *)
Lemma aggregate_loop_counts (field : string) (records : list record)
    (vs : list spec_float) :
  Forall2 (λ r v, field_value field r = Ok v) records vs →
  ∀ low medium high,
    aggregate_loop field records (categories_of low medium high)
    = Ok (categories_of (low + count in_low vs) (medium + count in_medium vs)
            (high + count in_high vs)).
Proof.
  induction 1 as [|r v records vs Hv _ IH]; intros low medium high.
  - cbn [aggregate_loop count]. by rewrite !Z.add_0_r.
  - cbn [aggregate_loop count]. unfold field_value in Hv.
    destruct (getattr r field) as [x|]; [|done]. cbn [mbind result_bind] in *.
    rewrite Hv. cbn [mbind result_bind].
    unfold in_low, in_medium, in_high.
    destruct (float_le v 20); cbn [negb andb].
    + rewrite increment_low. cbn [mbind result_bind]. rewrite IH.
      by rewrite ?Z.add_0_l, ?Z.add_assoc.
    + destruct (int_lt 20 v && float_le v 50).
      * rewrite increment_medium. cbn [mbind result_bind]. rewrite IH.
        by rewrite ?Z.add_0_l, ?Z.add_assoc.
      * rewrite increment_high. cbn [mbind result_bind]. rewrite IH.
        by rewrite ?Z.add_0_l, ?Z.add_assoc.
Qed.

(** Every value takes one branch. *)
Lemma count_branches (vs : list spec_float) :
  count in_low vs + count in_medium vs + count in_high vs
  = Z.of_nat (length vs).
Proof.
  induction vs as [|v vs IH]; [done|]. cbn [count length].
  unfold in_low, in_medium, in_high in *.
  destruct (float_le v 20), (int_lt 20 v && float_le v 50); cbn [negb andb]; lia.
Qed.

Lemma count_ext {A} (p q : A → bool) (l : list A) :
  (∀ x, p x = q x) → count p l = count q l.
Proof. intros H. induction l as [|x l IH]; [done|]. cbn. by rewrite H, IH. Qed.

(** The branches, as intervals. *)
Lemma in_medium_interval (v : spec_float) :
  in_medium v = int_lt 20 v && float_le v 50.
Proof.
  unfold in_medium. destruct (float_le v 20) eqn:Hle; [|done].
  destruct (int_lt 20 v) eqn:Hlt; [|done].
  apply (float_gt_not_le v 20) in Hlt. congruence.
Qed.

Lemma in_high_interval (v : spec_float) :
  in_high v = float_gt v 50 || is_nan v.
Proof.
  unfold in_high. destruct (is_nan v) eqn:Hnan.
  { destruct v; try done. }
  rewrite orb_false_r.
  destruct (float_le v 20) eqn:H20; cbn [negb andb].
  - destruct (float_gt v 50) eqn:Hgt; [|done].
    apply float_gt_50_not_le_20 in Hgt. congruence.
  - destruct (float_le v 50) eqn:H50.
    + assert (Hlt : int_lt 20 v = true).
      { apply not_SFleb_SFltb; [done..|apply H20]. }
      rewrite Hlt. cbn. destruct (float_gt v 50) eqn:Hgt; [|done].
      apply float_gt_not_le in Hgt. congruence.
    + rewrite andb_false_r. cbn. symmetry. by apply float_not_le_gt_50.
Qed.

Lemma Forall_field_value (field : string) (records : list record) :
  Forall (λ r, is_Ok (field_value field r) = true) records →
  ∃ vs, Forall2 (λ r v, field_value field r = Ok v) records vs.
Proof.
  induction 1 as [|r records Hr _ [vs IH]]; [by exists []|].
  apply is_Ok_true in Hr as [v Hv]. exists (v :: vs). by constructor.
Qed.

(** C8. For every list of records whose values in the chosen field all
    read as numbers, and so for each of the two fields, [aggregate_data]
    returns the dictionary of the three categories, and its three counts
    add up to the number of records. *)
Theorem aggregate_data_counts_sum (records : list record) (field : string) :
  Forall (λ r, is_Ok (field_value field r) = true) records →
  ∃ low medium high,
    aggregate_data records field = Ok (categories_of low medium high) ∧
    low + medium + high = Z.of_nat (length records).
Proof.
  intros [vs Hvs]%Forall_field_value.
  exists (count in_low vs), (count in_medium vs), (count in_high vs).
  split.
  - apply (aggregate_loop_counts field records vs Hvs 0 0 0).
  - rewrite count_branches. by rewrite (Forall2_length _ _ _ Hvs).
Qed.

Lemma aggregate_data_counts_sum_witness :
  let records := [PipelineRecord (PyStr "10") (PyStr "5");
                  FormattedPipelineRecord (PyStr "55") (PyStr "30");
                  PipelineRecord (PyStr "20") (PyStr "90")] in
  (∃ low medium high,
     aggregate_data records "throughput" = Ok (categories_of low medium high) ∧
     low + medium + high = Z.of_nat (length records)) ∧
  (∃ low medium high,
     aggregate_data records "available_capacity"
     = Ok (categories_of low medium high) ∧
     low + medium + high = Z.of_nat (length records)).
Proof.
  intros records. split.
  - apply (aggregate_data_counts_sum records "throughput").
    repeat constructor.
  - apply (aggregate_data_counts_sum records "available_capacity").
    repeat constructor.
Defined.

(** C4, as amended. For every list of records whose values in the chosen
    field all read as numbers, [aggregate_data] counts a value v in
    "Low (0-20)" iff v ≤ 20, in "Medium (20-50)" iff 20 < v ≤ 50, and in
    "High (50+)" iff v > 50 or v is NaN (the value of the text "nan", for
    which no comparison holds); 20, 50 and 50.0001 are counted in Low,
    Medium and High. *)
Theorem aggregate_data_intervals :
  (∀ (records : list record) (field : string) (vs : list spec_float),
     Forall2 (λ r v, field_value field r = Ok v) records vs →
     aggregate_data records field
     = Ok (categories_of
             (count (λ v, float_le v 20) vs)
             (count (λ v, int_lt 20 v && float_le v 50) vs)
             (count (λ v, float_gt v 50 || is_nan v) vs))) ∧
  aggregate_data [PipelineRecord (PyStr "20") (PyStr "0")] "throughput"
  = Ok (categories_of 1 0 0) ∧
  aggregate_data [PipelineRecord (PyStr "50") (PyStr "0")] "throughput"
  = Ok (categories_of 0 1 0) ∧
  aggregate_data [FormattedPipelineRecord (PyStr "50.0001") (PyStr "0")]
    "throughput"
  = Ok (categories_of 0 0 1).
Proof.
  split; [|repeat split; vm_compute; reflexivity].
  intros records field vs Hvs.
  change (aggregate_data records field)
    with (aggregate_loop field records (categories_of 0 0 0)).
  rewrite (aggregate_loop_counts field records vs Hvs 0 0 0).
  rewrite !Z.add_0_l.
  by rewrite (count_ext in_medium _ vs in_medium_interval),
    (count_ext in_high _ vs in_high_interval).
Qed.

Lemma aggregate_data_intervals_witness :
  let records := [PipelineRecord (PyStr "10") (PyStr "5");
                  FormattedPipelineRecord (PyStr "55") (PyStr "30");
                  PipelineRecord (PyStr "20") (PyStr "90")] in
  aggregate_data records "throughput" = Ok (categories_of 2 0 1).
Proof.
  intros records.
  pose proof (proj1 aggregate_data_intervals records "throughput") as H.
  specialize (H [S754_finite false 5629499534213120 (-49);
                 S754_finite false 7740561859543040 (-47);
                 S754_finite false 5629499534213120 (-48)]).
  rewrite H; [vm_compute; reflexivity|].
  repeat constructor.
Defined.

(** C4, as stated, fails: "nan" reads as a number, it is counted in
    "High (50+)", and it is not greater than 50. *)
Lemma aggregate_data_nan_counted_high :
  let records := [PipelineRecord (PyStr "nan") (PyStr "0")] in
  Forall (λ r, is_Ok (field_value "throughput" r) = true) records ∧
  field_value "throughput" (PipelineRecord (PyStr "nan") (PyStr "0"))
  = Ok S754_nan ∧
  float_gt S754_nan 50 = false ∧
  aggregate_data records "throughput" = Ok (categories_of 0 0 1) ∧
  count (λ v, float_gt v 50) [S754_nan] = 0.
Proof. repeat split; try (vm_compute; reflexivity). repeat constructor. Qed.

(** * Further properties of the business layer *)

Lemma run_input_EOF {B} prompt (g : string → M B) σ :
  stdin σ = [] → (input prompt ≫= g) σ = (Raise EOFError, emit (Prompt prompt) σ).
Proof. intros H. unfold mbind, M_bind, input. by rewrite H. Qed.

Lemma in_range_inv (k : Z) (n : nat) :
  (0 <=? k - 1) && (k - 1 <? Z.of_nat n) = true → 1 ≤ k ≤ Z.of_nat n.
Proof.
  intros [H1 H2]%andb_true_iff.
  apply Z.leb_le in H1. apply Z.ltb_lt in H2. lia.
Qed.

(** ** What the three functions never do *)

(** Whatever is typed, [edit_record] leaves the list as it was or with one
    slot changed. *)
Lemma edit_record_cases (σ : state) :
  records (edit_record σ).2 = records σ ∨
  ∃ (i : nat) (r : record),
    (i < length (records σ))%nat ∧
    records (edit_record σ).2 = <[i := r]> (records σ).
Proof.
  destruct (stdin σ) as [|s rest1] eqn:Hin.
  { left. unfold edit_record. rewrite run_len. by rewrite run_input_EOF. }
  destruct (int s) as [k|e] eqn:Hint.
  2:{ left. unfold edit_record.
      rewrite run_len, (run_input _ _ _ _ _ Hin).
      by rewrite (run_lift_Raise _ _ _ _ Hint). }
  destruct ((0 <=? k - 1) && (k - 1 <? Z.of_nat (length (records σ))))
    eqn:Hrange.
  2:{ left. unfold edit_record.
      rewrite run_len, (run_input _ _ _ _ _ Hin), (run_lift_Ok _ _ _ _ Hint).
      rewrite run_len. cbn [records]. by rewrite Hrange. }
  apply in_range_inv in Hrange as Hk.
  destruct (lookup_lt_is_Some_2 (records σ) (Z.to_nat (k - 1))) as [cur Hcur];
    [lia|].
  destruct rest1 as [|t [|c rest]].
  - left. unfold edit_record.
    rewrite run_len, (run_input _ _ _ _ _ Hin), (run_lift_Ok _ _ _ _ Hint).
    rewrite run_len. cbn [records]. rewrite Hrange.
    rewrite (run_getitem _ _ _ cur) by (done || lia).
    by rewrite run_input_EOF.
  - left. unfold edit_record.
    rewrite run_len, (run_input _ _ _ _ _ Hin), (run_lift_Ok _ _ _ _ Hint).
    rewrite run_len. cbn [records]. rewrite Hrange.
    rewrite (run_getitem _ _ _ cur) by (done || lia).
    erewrite run_input by reflexivity.
    by rewrite run_input_EOF.
  - right. exists (Z.to_nat (k - 1)).
    destruct (float (PyStr t)) as [v|e] eqn:Hf.
    + destruct (edit_record_Ok σ s t c rest k cur) with (v := v)
        as [line ->]; try done; [lia|].
      eexists. split; [lia|reflexivity].
    + rewrite (edit_record_Raise σ s t c rest k cur) with (e := e);
        try done; [|lia].
      eexists. split; [lia|reflexivity].
Qed.

(** [edit_record] never adds or removes a record, and never changes more
    than one: for every list and whatever is typed (a wrong number, a text
    that is no number, the end of the input), the list has the length it
    had and at most one position holds another record than before. *)
Theorem edit_record_keeps_length (σ : state) :
  length (records (edit_record σ).2) = length (records σ) ∧
  ∃ i : nat, ∀ j : nat, j ≠ i → records (edit_record σ).2 !! j = records σ !! j.
Proof.
  destruct (edit_record_cases σ) as [->|(i & r & Hi & ->)].
  - split; [done|]. by exists 0%nat.
  - split; [apply length_insert|]. exists i. intros j Hj.
    by apply list_lookup_insert_ne.
Qed.

(** [add_record] never changes or removes a record that is in the list:
    whatever is typed, the list after the call is the list before it,
    followed by at most one record. *)
Theorem add_record_extends (σ : state) :
  ∃ tail : list record,
    records (add_record σ).2 = records σ ++ tail ∧ (length tail ≤ 1)%nat.
Proof.
  destruct (stdin σ) as [|t [|c rest]] eqn:Hin.
  - exists []. unfold add_record. rewrite run_input_EOF by done.
    split; [by rewrite app_nil_r|simpl; lia].
  - exists []. unfold add_record. rewrite (run_input _ _ _ _ _ Hin).
    rewrite run_input_EOF by done. split; [by rewrite app_nil_r|simpl; lia].
  - destruct (float (PyStr t)) as [v|e] eqn:Hf.
    + rewrite (add_record_Ok _ _ _ _ _ Hin Hf). eexists.
      split; [reflexivity|simpl; lia].
    + rewrite (add_record_Raise _ _ _ _ _ Hin Hf). exists [].
      split; [by rewrite app_nil_r|simpl; lia].
Qed.

(** [delete_record] never removes more than one record and never changes
    one: whatever is typed, the list after the call is the list before it,
    or that list without the record of one position. *)
Theorem delete_record_at_most_one (σ : state) :
  records (delete_record σ).2 = records σ ∨
  ∃ i : nat,
    (i < length (records σ))%nat ∧
    records (delete_record σ).2 = delete i (records σ).
Proof.
  destruct (stdin σ) as [|s rest] eqn:Hin.
  { left. unfold delete_record. rewrite run_len. by rewrite run_input_EOF. }
  destruct (int s) as [k|e] eqn:Hint.
  2:{ left. unfold delete_record.
      rewrite run_len, (run_input _ _ _ _ _ Hin).
      by rewrite (run_lift_Raise _ _ _ _ Hint). }
  destruct ((0 <=? k - 1) && (k - 1 <? Z.of_nat (length (records σ))))
    eqn:Hrange.
  - apply in_range_inv in Hrange as Hk. right.
    destruct (delete_record_run σ s rest k Hin Hint Hk) as [out ->].
    exists (Z.to_nat (k - 1)). split; [lia|reflexivity].
  - left. unfold delete_record.
    rewrite run_len, (run_input _ _ _ _ _ Hin), (run_lift_Ok _ _ _ _ Hint).
    rewrite run_len. cbn [records]. by rewrite Hrange.
Qed.

(** ** A successful edit *)

(** When the record number is within the list and the new throughput reads
    as a number, [edit_record] returns normally, has read its three lines,
    and the record at that position holds the two texts as typed; the list
    keeps its length and every record at another position. *)
Theorem edit_record_overwrites_fields
    (σ : state) (s throughput_in capacity_in : string) (rest : list string) (k : Z) :
  stdin σ = s :: throughput_in :: capacity_in :: rest →
  int s = Ok k →
  1 ≤ k ≤ Z.of_nat (length (records σ)) →
  is_Ok (float (PyStr throughput_in)) = true →
  ∃ σ' edited,
    edit_record σ = (Ok (), σ') ∧
    stdin σ' = rest ∧
    length (records σ') = length (records σ) ∧
    (∀ j : nat, j ≠ Z.to_nat (k - 1) → records σ' !! j = records σ !! j) ∧
    records σ' !! Z.to_nat (k - 1) = Some edited ∧
    throughput edited = PyStr throughput_in ∧
    available_capacity edited = PyStr capacity_in.
Proof.
  intros Hin Hint Hk [v Hf]%is_Ok_true.
  destruct (lookup_lt_is_Some_2 (records σ) (Z.to_nat (k - 1))) as [cur Hcur];
    [lia|].
  destruct (edit_record_Ok σ s throughput_in capacity_in rest k cur)
    with (v := v) as [line ->]; try done; [lia|].
  eexists _, _. split; [reflexivity|]. cbn [records stdin].
  split; [done|]. split; [apply length_insert|].
  split; [intros j Hj; by apply list_lookup_insert_ne|].
  split; [apply list_lookup_insert_eq; lia|].
  destruct (float_gt v 50 && _); [done|].
  destruct (float_le v 50 && _); [done|]. by destruct cur.
Qed.

Lemma edit_record_overwrites_fields_witness :
  let σ := session [PipelineRecord (PyStr "10") (PyStr "5");
                    PipelineRecord (PyStr "20") (PyStr "6")]
             ["2"; "70.5"; "n/a"; "more"] in
  ∃ σ' edited,
    edit_record σ = (Ok (), σ') ∧
    stdin σ' = ["more"] ∧
    length (records σ') = length (records σ) ∧
    (∀ j : nat, j ≠ Z.to_nat (2 - 1) → records σ' !! j = records σ !! j) ∧
    records σ' !! Z.to_nat (2 - 1) = Some edited ∧
    throughput edited = PyStr "70.5" ∧
    available_capacity edited = PyStr "n/a".
Proof.
  intros σ.
  refine (edit_record_overwrites_fields σ "2" "70.5" "n/a" ["more"] 2
            eq_refl _ _ _).
  - vm_compute; reflexivity.
  - simpl; lia.
  - vm_compute; reflexivity.
Defined.

(** Editing a record twice with the same lines is editing it once: the
    second call returns normally and leaves the list as the first call left
    it, also when the throughput reads as NaN. *)
Theorem edit_record_twice
    (σ : state) (s throughput_in capacity_in : string) (rest : list string) (k : Z) :
  stdin σ
  = s :: throughput_in :: capacity_in :: s :: throughput_in :: capacity_in :: rest →
  int s = Ok k →
  1 ≤ k ≤ Z.of_nat (length (records σ)) →
  is_Ok (float (PyStr throughput_in)) = true →
  (edit_record σ).1 = Ok () ∧
  (edit_record (edit_record σ).2).1 = Ok () ∧
  records (edit_record (edit_record σ).2).2 = records (edit_record σ).2.
Proof.
  intros Hin Hint Hk [v Hf]%is_Ok_true.
  destruct (lookup_lt_is_Some_2 (records σ) (Z.to_nat (k - 1))) as [cur Hcur];
    [lia|].
  destruct (edit_record_Ok σ s throughput_in capacity_in
              (s :: throughput_in :: capacity_in :: rest) k cur)
    with (v := v) as [line ->]; try done; [lia|].
  cbn [fst snd]. split; [done|].
  match goal with |- context [State (<[_ := ?r]> _) ?i ?o ?f] =>
    set (r1 := r); set (σ1 := State (<[Z.to_nat (k - 1) := r1]> (records σ)) i o f)
  end.
  destruct (edit_record_Ok σ1 s throughput_in capacity_in rest k r1)
    with (v := v) as [line' ->]; try done; [lia| |].
  { cbn [σ1 records]. apply list_lookup_insert_eq. lia. }
  cbn [fst snd records σ1]. split; [done|].
  rewrite list_insert_insert_eq. f_equal. subst r1.
  destruct (float_gt v 50) eqn:Hgt.
  - rewrite (float_gt_not_le _ _ Hgt). by destruct cur.
  - destruct (float_le v 50); by destruct cur.
Qed.

Lemma edit_record_twice_witness :
  let σ := session [FormattedPipelineRecord (PyStr "60") (PyStr "5")]
             ["1"; "nan"; "7"; "1"; "nan"; "7"] in
  (edit_record σ).1 = Ok () ∧
  (edit_record (edit_record σ).2).1 = Ok () ∧
  records (edit_record (edit_record σ).2).2 = records (edit_record σ).2.
Proof.
  intros σ.
  refine (edit_record_twice σ "1" "nan" "7" [] 1 eq_refl _ _ _).
  - vm_compute; reflexivity.
  - simpl; lia.
  - vm_compute; reflexivity.
Defined.

(** ** A record number that is no integer *)

(** When the text typed as record number is not an integer, [edit_record]
    and [delete_record] raise [ValueError] right after reading it: the list
    is unchanged and no further line is read. *)
Theorem record_number_not_an_integer
    (σ : state) (s : string) (rest : list string) :
  stdin σ = s :: rest →
  is_Ok (int s) = false →
  edit_record σ
  = (Raise ValueError,
     State (records σ) rest
       (stdout σ ++
          [Prompt ("Enter record number to edit (1 to "
                     +:+ pretty (Z.of_nat (length (records σ))) +:+ "): ")])
       (files σ))
  ∧ delete_record σ
  = (Raise ValueError,
     State (records σ) rest
       (stdout σ ++
          [Prompt ("Enter record number to delete (1 to "
                     +:+ pretty (Z.of_nat (length (records σ))) +:+ "): ")])
       (files σ)).
Proof.
  intros Hin Hint.
  assert (Hraise : int s = Raise ValueError).
  { unfold int in *. by destruct (int_of_string s). }
  split.
  - unfold edit_record. rewrite run_len, (run_input _ _ _ _ _ Hin).
    by rewrite (run_lift_Raise _ _ _ _ Hraise).
  - unfold delete_record. rewrite run_len, (run_input _ _ _ _ _ Hin).
    by rewrite (run_lift_Raise _ _ _ _ Hraise).
Qed.

Lemma record_number_not_an_integer_witness :
  let σ := session [PipelineRecord (PyStr "10") (PyStr "5")] ["1.0"; "7"] in
  edit_record σ
  = (Raise ValueError,
     State (records σ) ["7"]
       [Prompt "Enter record number to edit (1 to 1): "] ∅)
  ∧ delete_record σ
  = (Raise ValueError,
     State (records σ) ["7"]
       [Prompt "Enter record number to delete (1 to 1): "] ∅).
Proof.
  intros σ.
  refine (record_number_not_an_integer σ "1.0" ["7"] eq_refl _).
  vm_compute; reflexivity.
Defined.

(** ** Adding and deleting *)

(** Deleting the record just added gives back the list: after a successful
    [add_record], [delete_record] with the number of the last record leaves
    the list that [add_record] was given. *)
Theorem add_then_delete_last
    (σ : state) (throughput_in capacity_in s : string) (rest : list string) :
  stdin σ = throughput_in :: capacity_in :: s :: rest →
  is_Ok (float (PyStr throughput_in)) = true →
  int s = Ok (Z.of_nat (length (records σ)) + 1) →
  (add_record σ).1 = Ok () ∧
  (delete_record (add_record σ).2).1 = Ok () ∧
  records (delete_record (add_record σ).2).2 = records σ.
Proof.
  intros Hin [v Hf]%is_Ok_true Hint.
  rewrite (add_record_Ok _ _ _ _ _ Hin Hf). cbn [fst snd]. split; [done|].
  match goal with |- context [State (?l ++ [?r]) ?i ?o ?f] =>
    set (σ1 := State (l ++ [r]) i o f); set (new := r) in *
  end.
  destruct (delete_record_run σ1 s rest (Z.of_nat (length (records σ)) + 1))
    as [out ->]; [done..| |].
  { cbn [σ1 records]. rewrite length_app. cbn [length]. lia. }
  cbn [fst snd records σ1]. split; [done|].
  replace (Z.to_nat (Z.of_nat (length (records σ)) + 1 - 1))
    with (length (records σ)) by lia.
  rewrite delete_middle. by rewrite app_nil_r.
Qed.

Lemma add_then_delete_last_witness :
  let σ := session [PipelineRecord (PyStr "10") (PyStr "5")] ["60"; "5"; "2"] in
  (add_record σ).1 = Ok () ∧
  (delete_record (add_record σ).2).1 = Ok () ∧
  records (delete_record (add_record σ).2).2 = records σ.
Proof.
  intros σ.
  refine (add_then_delete_last σ "60" "5" "2" [] eq_refl _ _);
    vm_compute; reflexivity.
Defined.

(** * Further properties of loading *)

(** A file that is not there, or that cannot be opened, gives the empty
    list and a message; the exception does not leave
    [load_data_from_file]. When no file has the name, [open] raises
    [FileNotFoundError] and the message is that the file was not found;
    when the file exists and opening it raises another exception, as for a
    directory or a file that may not be read, the message is that of the
    general handler, with the exception. *)
Theorem load_data_from_file_not_opened (file_name : string) (σ : state) :
  (files σ !! file_name = None →
   load_data_from_file file_name σ
   = (Ok [], emit (Print ("Error: " +:+ file_name +:+ " was not found.")) σ)) ∧
  (∀ e,
     files σ !! file_name = Some ([], Some e) →
     e ≠ FileNotFoundError →
     load_data_from_file file_name σ
     = (Ok [], emit (PrintExn "An error occurred: " e) σ)).
Proof.
  split.
  - intros H. unfold load_data_from_file, open_csv. by rewrite H.
  - intros e H He. unfold load_data_from_file, open_csv. rewrite H.
    cbn [load_rows]. by destruct e.
Qed.

Lemma load_data_from_file_not_opened_witness :
  let σ := session_with_file "other.csv" [row_of (PyStr "10") (PyStr "5")] in
  let τ := State [] [] [] {["data" := ([], Some IsADirectoryError)]} in
  load_data_from_file "keystone-throughput-and-capacity.csv" σ
  = (Ok [],
     emit (Print ("Error: " +:+ "keystone-throughput-and-capacity.csv"
                    +:+ " was not found.")) σ) ∧
  load_data_from_file "data" τ
  = (Ok [], emit (PrintExn "An error occurred: " IsADirectoryError) τ).
Proof.
  intros σ τ. split.
  - exact (proj1 (load_data_from_file_not_opened
                    "keystone-throughput-and-capacity.csv" σ) eq_refl).
  - refine (proj2 (load_data_from_file_not_opened "data" τ)
              IsADirectoryError eq_refl _).
    discriminate.
Defined.

Lemma row_record_row_of (t c : pyval) (v : spec_float) :
  float t = Ok v →
  row_record (row_of t c)
  = Ok (if float_gt v 50 then FormattedPipelineRecord t c else PipelineRecord t c).
Proof.
  intros Hf. unfold row_record, row_getitem, row_of.
  rewrite lookup_insert_eq. cbn [mbind result_bind]. rewrite Hf.
  cbn [mbind result_bind].
  rewrite lookup_insert_ne, lookup_insert_eq by done.
  by destruct (float_gt v 50).
Qed.

Lemma row_record_record_row (r : record) :
  record_ok r = true → row_record (record_row r) = Ok r.
Proof.
  unfold record_ok, record_row. intros Hr.
  destruct (float (throughput r)) as [v|] eqn:Hf; [|done].
  apply bool_decide_eq_true in Hr.
  rewrite (row_record_row_of _ _ _ Hf), <- Hr. by destruct r.
Qed.

(** Loading gives back a store that was written row by row: for every list
    of at most 100 records that is within the threshold rule, the file whose
    rows hold the two attributes of each record, in order, and that is read
    to its end, is loaded as that very list, classes included, and nothing
    is reported. *)
Theorem load_data_from_file_record_rows
    (file_name : string) (σ : state) (l : list record) :
  files σ !! file_name = Some (record_row <$> l, None) →
  store_ok l = true →
  (length l ≤ 100)%nat →
  load_data_from_file file_name σ = (Ok l, σ).
Proof.
  intros Hfile Hok%store_ok_Forall Hlen.
  assert (Hrows : Forall2 (λ row r, row_record row = Ok r) (record_row <$> l) l).
  { apply Forall2_fmap_l, Forall_Forall2_diag.
    eapply Forall_impl; [exact Hok|]. intros r. apply row_record_record_row. }
  unfold load_data_from_file, open_csv. rewrite Hfile.
  rewrite <- (app_nil_r (record_row <$> l)).
  destruct (decide (length l = 100%nat)) as [Hfull|Hless].
  - rewrite (load_rows_full _ _ _ _ Hrows); [done| |simpl; lia].
    intros ->. simpl in Hfull. lia.
  - by rewrite (load_rows_below _ _ _ _ Hrows) by (simpl; lia).
Qed.

Lemma load_data_from_file_record_rows_witness :
  let l := [PipelineRecord (PyStr "10") (PyStr "5");
            FormattedPipelineRecord (PyStr " 6_0.5 ") (PyStr "n/a");
            PipelineRecord (PyStr "nan") PyNone] in
  let σ := session_with_file "data.csv" (record_row <$> l) in
  load_data_from_file "data.csv" σ = (Ok l, σ).
Proof.
  intros l σ.
  refine (load_data_from_file_record_rows "data.csv" σ l eq_refl _ _).
  - vm_compute; reflexivity.
  - simpl; lia.
Defined.

(** * Further properties of the aggregation *)

Lemma count_app {A} (p : A → bool) (l1 l2 : list A) :
  count p (l1 ++ l2) = count p l1 + count p l2.
Proof. induction l1 as [|x l1 IH]; [done|]. cbn [app count]. rewrite IH. lia. Qed.

Lemma count_Permutation {A} (p : A → bool) (l1 l2 : list A) :
  l1 ≡ₚ l2 → count p l1 = count p l2.
Proof.
  induction 1 as [|x l1 l2 _ IH|x y l|l1 l2 l3 _ IH1 _ IH2]; cbn [count];
    [done|by rewrite IH|lia|congruence].
Qed.

Lemma Ok_inj {A} (a b : A) : Ok a = Ok b → a = b.
Proof. congruence. Qed.

Lemma categories_of_inj (a b c a' b' c' : Z) :
  categories_of a b c = categories_of a' b' c' → a = a' ∧ b = b' ∧ c = c'.
Proof.
  intros H.
  pose proof (f_equal (λ d : gmap string Z, d !! "Low (0-20)") H) as Ha.
  pose proof (f_equal (λ d : gmap string Z, d !! "Medium (20-50)") H) as Hb.
  pose proof (f_equal (λ d : gmap string Z, d !! "High (50+)") H) as Hc.
  cbv beta in Ha, Hb, Hc.
  change (Some a = Some a') in Ha. change (Some b = Some b') in Hb.
  change (Some c = Some c') in Hc. by simplify_eq.
Qed.

(** The loop stops at the first record whose value does not read as a
    number, with the exception of that record. *)
Lemma aggregate_loop_Raise (field : string) (before after : list record)
    (bad : record) (vs : list spec_float) (e : exn) :
  Forall2 (λ r v, field_value field r = Ok v) before vs →
  field_value field bad = Raise e →
  ∀ low medium high,
    aggregate_loop field (before ++ bad :: after) (categories_of low medium high)
    = Raise e.
Proof.
  intros Hvs Hbad.
  induction Hvs as [|r v before vs Hv _ IH]; intros low medium high.
  - cbn [app aggregate_loop]. unfold field_value in Hbad.
    destruct (getattr bad field) as [x|]; cbn [mbind result_bind] in *;
      [by rewrite Hbad|congruence].
  - cbn [app aggregate_loop]. unfold field_value in Hv.
    destruct (getattr r field) as [x|]; [|done]. cbn [mbind result_bind] in *.
    rewrite Hv. cbn [mbind result_bind].
    destruct (float_le v 20).
    + rewrite increment_low. apply IH.
    + destruct (int_lt 20 v && float_le v 50).
      * rewrite increment_medium. apply IH.
      * rewrite increment_high. apply IH.
Qed.

(** The lists on which [aggregate_data] returns are those whose values all
    read as numbers. *)
Lemma aggregate_data_Ok_inv (records : list record) (field : string)
    (d : gmap string Z) :
  aggregate_data records field = Ok d →
  ∃ vs, Forall2 (λ r v, field_value field r = Ok v) records vs.
Proof.
  intros Hd.
  assert (Hall : ∀ l, (∃ vs, Forall2 (λ r v, field_value field r = Ok v) l vs) ∨
                      ∃ before bad after vs e,
                        l = before ++ bad :: after ∧
                        Forall2 (λ r v, field_value field r = Ok v) before vs ∧
                        field_value field bad = Raise e).
  { induction l as [|r l [[vs IH]|(before & bad & after & vs & e & -> & ? & ?)]].
    - left. by exists [].
    - destruct (field_value field r) as [v|e] eqn:Hr.
      + left. exists (v :: vs). by constructor.
      + right. by exists [], r, l, [], e.
    - destruct (field_value field r) as [v|e'] eqn:Hr.
      + right. exists (r :: before), bad, after, (v :: vs), e.
        split; [done|]. split; [by constructor|done].
      + right. by exists [], r, (before ++ bad :: after), [], e'. }
  destruct (Hall records) as [?|(before & bad & after & vs & e & -> & Hvs & Hbad)];
    [done|].
  change (aggregate_loop field (before ++ bad :: after) (categories_of 0 0 0) = Ok d)
    in Hd.
  by rewrite (aggregate_loop_Raise _ _ _ _ _ _ Hvs Hbad) in Hd.
Qed.

(** One value that does not read as a number makes the whole aggregation
    fail: [aggregate_data] raises the exception of the first record whose
    chosen field is not readable, and returns no count for the records
    before it. *)
Theorem aggregate_data_first_unreadable
    (before after : list record) (bad : record) (field : string) (e : exn) :
  Forall (λ r, is_Ok (field_value field r) = true) before →
  field_value field bad = Raise e →
  aggregate_data (before ++ bad :: after) field = Raise e.
Proof.
  intros [vs Hvs]%Forall_field_value Hbad.
  apply (aggregate_loop_Raise field before after bad vs e Hvs Hbad 0 0 0).
Qed.

Lemma aggregate_data_first_unreadable_witness :
  aggregate_data
    ([PipelineRecord (PyStr "10") (PyStr "5")]
       ++ PipelineRecord (PyStr "20") (PyStr "abc")
       :: [PipelineRecord (PyStr "30") PyNone])
    "available_capacity"
  = Raise ValueError.
Proof.
  refine (aggregate_data_first_unreadable
            [PipelineRecord (PyStr "10") (PyStr "5")]
            [PipelineRecord (PyStr "30") PyNone]
            (PipelineRecord (PyStr "20") (PyStr "abc"))
            "available_capacity" ValueError _ _).
  - repeat constructor.
  - vm_compute; reflexivity.
Defined.

(** The counts of a list made of two parts are the sums of the counts of
    the parts. *)
Theorem aggregate_data_app (l1 l2 : list record) (field : string)
    (low1 medium1 high1 low2 medium2 high2 : Z) :
  aggregate_data l1 field = Ok (categories_of low1 medium1 high1) →
  aggregate_data l2 field = Ok (categories_of low2 medium2 high2) →
  aggregate_data (l1 ++ l2) field
  = Ok (categories_of (low1 + low2) (medium1 + medium2) (high1 + high2)).
Proof.
  intros H1 H2.
  destruct (aggregate_data_Ok_inv _ _ _ H1) as [vs1 Hvs1].
  destruct (aggregate_data_Ok_inv _ _ _ H2) as [vs2 Hvs2].
  change (aggregate_loop field l1 (categories_of 0 0 0)
          = Ok (categories_of low1 medium1 high1)) in H1.
  change (aggregate_loop field l2 (categories_of 0 0 0)
          = Ok (categories_of low2 medium2 high2)) in H2.
  rewrite (aggregate_loop_counts _ _ _ Hvs1) in H1.
  rewrite (aggregate_loop_counts _ _ _ Hvs2) in H2.
  apply Ok_inj, categories_of_inj in H1 as (<- & <- & <-).
  apply Ok_inj, categories_of_inj in H2 as (<- & <- & <-).
  change (aggregate_data (l1 ++ l2) field)
    with (aggregate_loop field (l1 ++ l2) (categories_of 0 0 0)).
  rewrite (aggregate_loop_counts _ _ (vs1 ++ vs2)) by by apply Forall2_app.
  by rewrite !count_app.
Qed.

Lemma aggregate_data_app_witness :
  aggregate_data
    ([PipelineRecord (PyStr "10") (PyStr "5")]
       ++ [FormattedPipelineRecord (PyStr "60") (PyStr "5");
           PipelineRecord (PyStr "30") (PyStr "5")])
    "throughput"
  = Ok (categories_of (1 + 0) (0 + 1) (0 + 1)).
Proof.
  refine (aggregate_data_app _ _ "throughput" 1 0 0 0 1 1 _ _);
    vm_compute; reflexivity.
Defined.

(** Counting values is counting the records that hold them. *)
Lemma count_values (field : string) (p : spec_float → bool)
    (l : list record) (vs : list spec_float) :
  Forall2 (λ r v, field_value field r = Ok v) l vs →
  count p vs
  = count (λ r, match field_value field r with
                | Ok v => p v
                | Raise _ => false
                end) l.
Proof.
  induction 1 as [|r v l vs Hv _ IH]; [done|]. cbn [count]. by rewrite Hv, IH.
Qed.

(** The counts do not depend on the order of the records: when
    [aggregate_data] returns on a list, it returns the same dictionary on
    every rearrangement of the list. *)
Theorem aggregate_data_Permutation (l1 l2 : list record) (field : string)
    (d : gmap string Z) :
  l1 ≡ₚ l2 →
  aggregate_data l1 field = Ok d →
  aggregate_data l2 field = Ok d.
Proof.
  intros Hp H1.
  destruct (aggregate_data_Ok_inv _ _ _ H1) as [vs1 Hvs1].
  assert (Hall : Forall (λ r, is_Ok (field_value field r) = true) l2).
  { rewrite <- Hp. apply Forall_forall. intros r Hr.
    apply list_elem_of_lookup in Hr as [i Hi].
    destruct (Forall2_lookup_l _ _ _ _ _ Hvs1 Hi) as (v & _ & ->). done. }
  apply Forall_field_value in Hall as [vs2 Hvs2].
  change (aggregate_loop field l1 (categories_of 0 0 0) = Ok d) in H1.
  rewrite (aggregate_loop_counts _ _ _ Hvs1) in H1. apply Ok_inj in H1 as <-.
  change (aggregate_data l2 field)
    with (aggregate_loop field l2 (categories_of 0 0 0)).
  rewrite (aggregate_loop_counts _ _ _ Hvs2).
  assert (Hcount : ∀ p : spec_float → bool, count p vs1 = count p vs2).
  { intros p. rewrite (count_values field p _ _ Hvs1), (count_values field p _ _ Hvs2).
    by apply count_Permutation. }
  by rewrite !Hcount.
Qed.

Lemma aggregate_data_Permutation_witness :
  let a := PipelineRecord (PyStr "10") (PyStr "5") in
  let b := FormattedPipelineRecord (PyStr "60") (PyStr "5") in
  aggregate_data [b; a] "throughput" = Ok (categories_of 1 0 1).
Proof.
  intros a b.
  refine (aggregate_data_Permutation [a; b] [b; a] "throughput" _ _ _).
  - apply perm_swap.
  - vm_compute; reflexivity.
Defined.

Lemma store_ok_throughput_readable (l : list record) :
  store_ok l = true →
  Forall (λ r, is_Ok (field_value "throughput" r) = true) l.
Proof.
  intros Hok%store_ok_Forall.
  eapply Forall_impl; [exact Hok|]. intros r Hr. unfold record_ok in Hr.
  change (field_value "throughput" r) with (float (throughput r)).
  by destruct (float (throughput r)).
Qed.

(** On the throughput of a store within the threshold rule the aggregation
    cannot fail, and its "High (50+)" count is the number of formatted
    records plus the number of records whose throughput reads as NaN. *)
Theorem aggregate_data_throughput_store_ok (l : list record) :
  store_ok l = true →
  ∃ low medium,
    aggregate_data l "throughput"
    = Ok (categories_of low medium
            (count isinstance_FormattedPipelineRecord l
             + count throughput_is_nan l)).
Proof.
  intros Hok. pose proof (store_ok_throughput_readable l Hok) as Hall.
  apply store_ok_Forall in Hok.
  apply Forall_field_value in Hall as [vs Hvs].
  exists (count in_low vs), (count in_medium vs).
  change (aggregate_data l "throughput")
    with (aggregate_loop "throughput" l (categories_of 0 0 0)).
  rewrite (aggregate_loop_counts _ _ _ Hvs), !Z.add_0_l. do 2 f_equal.
  rewrite (count_ext in_high _ vs in_high_interval).
  rewrite (count_values "throughput" _ _ _ Hvs). clear Hvs.
  induction Hok as [|r l Hr _ IH]; [done|]. cbn [count]. rewrite IH.
  unfold record_ok, throughput_is_nan in *.
  change (field_value "throughput" r) with (float (throughput r)).
  destruct (float (throughput r)) as [v|]; [|done].
  apply bool_decide_eq_true in Hr. rewrite Hr.
  destruct (is_nan v) eqn:Hnan.
  - destruct v; try done. rewrite float_gt_nan. cbn. lia.
  - rewrite orb_false_r. destruct (float_gt v 50); lia.
Qed.

Lemma aggregate_data_throughput_store_ok_witness :
  let l := [PipelineRecord (PyStr "10") (PyStr "abc");
            FormattedPipelineRecord (PyStr "60") PyNone;
            PipelineRecord (PyStr "nan") (PyStr "5")] in
  ∃ low medium,
    aggregate_data l "throughput"
    = Ok (categories_of low medium
            (count isinstance_FormattedPipelineRecord l
             + count throughput_is_nan l)).
Proof.
  intros l. refine (aggregate_data_throughput_store_ok l _).
  vm_compute; reflexivity.
Defined.

(** * The presentation layer *)

(** The text shown for a record tells its class: a formatted record and a
    plain record are never shown by the same text, whatever their
    attributes. *)
Theorem str_tells_the_class (r r' : record) :
  isinstance_FormattedPipelineRecord r ≠ isinstance_FormattedPipelineRecord r' →
  __str__ r ≠ __str__ r'.
Proof.
  destruct r as [t c|t c], r' as [t' c'|t' c']; cbn [isinstance_FormattedPipelineRecord];
    intros Hne; try done; cbn [__str__ newline]; discriminate.
Qed.

Lemma str_tells_the_class_witness :
  __str__ (FormattedPipelineRecord (PyStr "60") (PyStr "5"))
  ≠ __str__ (PipelineRecord (PyStr "60") (PyStr "5")).
Proof.
  refine (str_tells_the_class _ _ _). simpl. discriminate.
Defined.

Lemma display_loop_lines (l : list record) :
  ∀ (i : nat) (σ : state),
    display_loop (Z.of_nat i) l σ
    = (Ok (),
       State (records σ) (stdin σ)
         (stdout σ ++ imap (λ j, display_line (i + j)) l) (files σ)).
Proof.
  induction l as [|r l IH]; intros i σ.
  - cbn [display_loop imap]. rewrite app_nil_r. by destruct σ.
  - cbn [display_loop]. rewrite run_print.
    replace (Z.of_nat i + 1) with (Z.of_nat (S i)) by lia.
    rewrite IH. unfold emit. cbn [records stdin stdout files imap].
    rewrite <- app_assoc. cbn [app].
    assert (Hline : Print (pretty (Z.of_nat (S i)) +:+ ". " +:+ __str__ r)
                    = display_line (i + 0) r).
    { unfold display_line.
      by replace (Z.of_nat (i + 0) + 1) with (Z.of_nat (S i)) by lia. }
    assert (Hrest : imap (λ j, display_line (S i + j)) l
                    = imap ((λ j, display_line (i + j)) ∘ S) l).
    { apply imap_ext. intros j x _. cbn [compose].
      by replace (S i + j)%nat with (i + S j)%nat by lia. }
    by rewrite Hline, Hrest.
Qed.

(** [display_records] prints its heading and then one line for each record,
    in the order of the list, the record at position j under the number
    j + 1, the number by which [edit_record] and [delete_record] take it; it
    reads nothing and leaves the list as it is. *)
Theorem display_records_lines (σ : state) :
  display_records σ
  = (Ok (),
     State (records σ) (stdin σ)
       (stdout σ
          ++ Print (newline +:+ "Pipeline Throughput and Capacity Records:")
          :: imap display_line (records σ))
       (files σ)).
Proof.
  unfold display_records. rewrite run_print.
  change ((get_records ≫= λ l, display_loop 0 l) (emit (Print _) σ))
    with (display_loop (Z.of_nat 0) (records σ)
            (emit (Print (newline +:+ "Pipeline Throughput and Capacity Records:")) σ)).
  rewrite display_loop_lines. unfold emit. cbn [records stdin stdout files].
  by rewrite <- app_assoc.
Qed.

(** * The horizontal bar chart *)

Lemma keys_categories_of (low medium high : Z) :
  keys (categories_of low medium high) = insertion_order.
Proof. reflexivity. Qed.

Lemma values_categories_of (low medium high : Z) :
  values (categories_of low medium high) = [low; medium; high].
Proof. reflexivity. Qed.

(** [generate_horizontal_bar_chart] on a list that is not empty, once the
    choice is read. *)
Lemma generate_horizontal_bar_chart_run
    (σ : state) (choice : string) (rest : list string) :
  records σ ≠ [] →
  stdin σ = choice :: rest →
  generate_horizontal_bar_chart σ
  = (aggregated_data ← lift (aggregate_data (records σ) (chosen_field choice));
     ret (Some (Chart (keys aggregated_data) (values aggregated_data)
                  (chosen_title choice))))
      (State (records σ) rest (stdout σ ++ chart_prompts choice) (files σ)).
Proof.
  intros Hne Hin. unfold generate_horizontal_bar_chart.
  change ((get_records ≫= ?g) σ) with (g (records σ) σ). cbv beta.
  destruct (records σ) as [|r l] eqn:Hrec; [done|].
  rewrite !run_print.
  erewrite run_input by (unfold emit; cbn [stdin]; exact Hin).
  unfold emit, chart_prompts, chosen_field, chosen_title.
  cbn [records stdin stdout files]. rewrite Hrec.
  destruct (String.eqb choice "1") eqn:H1.
  - apply String.eqb_eq in H1 as ->. cbn [orb String.eqb Ascii.eqb Bool.eqb].
    unfold mbind at 1, M_bind at 1, ret at 1.
    by rewrite <- !app_assoc.
  - destruct (String.eqb choice "2") eqn:H2; cbn [orb].
    + unfold mbind at 1, M_bind at 1, ret at 1. by rewrite <- !app_assoc.
    + unfold mbind at 1, M_bind at 1. rewrite run_print. unfold ret at 1, emit.
      cbn [records stdin stdout files]. by rewrite <- !app_assoc.
Qed.

(** Without records nothing is asked and nothing is drawn:
    [generate_horizontal_bar_chart] prints its message and returns, leaving
    the lines typed ahead unread. *)
Theorem generate_horizontal_bar_chart_no_data (σ : state) :
  records σ = [] →
  generate_horizontal_bar_chart σ
  = (Ok None,
     emit (Print (newline
                    +:+ "No data loaded. Please load data before generating a chart."))
       σ).
Proof.
  intros Hrec. unfold generate_horizontal_bar_chart.
  change ((get_records ≫= ?g) σ) with (g (records σ) σ). cbv beta.
  by rewrite Hrec.
Qed.

Lemma generate_horizontal_bar_chart_no_data_witness :
  let σ := session [] ["2"] in
  generate_horizontal_bar_chart σ
  = (Ok None,
     emit (Print (newline
                    +:+ "No data loaded. Please load data before generating a chart."))
       σ).
Proof.
  intros σ. exact (generate_horizontal_bar_chart_no_data σ eq_refl).
Defined.



(** A choice that is neither "1" nor "2" is not refused: it is taken as
    "1". The value of the call, a chart of the available capacity or an
    exception, is the one the choice "1" gives, and the terminal shows
    one more line, the notice of the default. *)
Theorem generate_horizontal_bar_chart_default
    (l : list record) (choice : string) (rest : list string) :
  l ≠ [] →
  String.eqb choice "1" = false →
  String.eqb choice "2" = false →
  (generate_horizontal_bar_chart (session l (choice :: rest))).1
  = (generate_horizontal_bar_chart (session l ("1" :: rest))).1 ∧
  stdout (generate_horizontal_bar_chart (session l (choice :: rest))).2
  = stdout (generate_horizontal_bar_chart (session l ("1" :: rest))).2
    ++ [Print "Invalid choice. Defaulting to Available Capacity."].
Proof.
  intros Hne H1 H2.
  rewrite (generate_horizontal_bar_chart_run (session l (choice :: rest))
             choice rest Hne eq_refl).
  rewrite (generate_horizontal_bar_chart_run (session l ("1" :: rest))
             "1" rest Hne eq_refl).
  unfold chosen_field, chosen_title, chart_prompts. rewrite H1, H2.
  cbn [String.eqb Ascii.eqb Bool.eqb orb session records stdout app].
  destruct (aggregate_data l "available_capacity") as [d|e]; by cbn.
Qed.

Lemma generate_horizontal_bar_chart_default_witness :
  let l := [PipelineRecord (PyStr "10") (PyStr "70")] in
  (generate_horizontal_bar_chart (session l ["3"; "8"])).1
  = (generate_horizontal_bar_chart (session l ["1"; "8"])).1 ∧
  stdout (generate_horizontal_bar_chart (session l ["3"; "8"])).2
  = stdout (generate_horizontal_bar_chart (session l ["1"; "8"])).2
    ++ [Print "Invalid choice. Defaulting to Available Capacity."].
Proof.
  intros l.
  refine (generate_horizontal_bar_chart_default l "3" ["8"] _ eq_refl eq_refl).
  discriminate.
Defined.

(** A capacity that [add_record] accepted although it is no number makes
    the chart of the available capacity fail afterwards: after such a
    call, [generate_horizontal_bar_chart] with a choice other than "2"
    raises an exception and draws nothing, whatever the other records are. *)
Theorem chart_fails_after_unreadable_capacity
    (σ : state) (throughput_in capacity_in choice : string) (rest : list string) :
  stdin σ = throughput_in :: capacity_in :: choice :: rest →
  is_Ok (float (PyStr throughput_in)) = true →
  is_Ok (float (PyStr capacity_in)) = false →
  String.eqb choice "2" = false →
  (add_record σ).1 = Ok () ∧
  ∃ e, (generate_horizontal_bar_chart (add_record σ).2).1 = Raise e.
Proof.
  intros Hin [v Hf]%is_Ok_true Hcap Hchoice.
  rewrite (add_record_Ok _ _ _ _ _ Hin Hf). cbn [fst snd]. split; [done|].
  match goal with |- context [State (?l ++ [?r]) ?i ?o ?f] =>
    set (new := r); set (σ1 := State (l ++ [new]) i o f)
  end.
  rewrite (generate_horizontal_bar_chart_run σ1 choice rest);
    [|cbn [σ1 records]; by destruct (records σ)|done].
  unfold chosen_field. rewrite Hchoice. cbn [σ1 records].
  destruct (aggregate_data (records σ ++ [new]) "available_capacity")
    as [d|e] eqn:Hd; [|by exists e].
  apply aggregate_data_Ok_inv in Hd as [vs Hvs].
  apply Forall2_app_inv_l in Hvs as (vs1 & vs2 & _ & Hnew & _).
  apply Forall2_cons_inv_l in Hnew as (w & ? & Hw & _).
  assert (Hfield : field_value "available_capacity" new = float (PyStr capacity_in))
    by (subst new; by destruct (float_gt v 50)).
  rewrite Hfield in Hw. by rewrite Hw in Hcap.
Qed.

Lemma chart_fails_after_unreadable_capacity_witness :
  let σ := session [PipelineRecord (PyStr "10") (PyStr "70")]
             ["20"; "twenty"; "1"] in
  (add_record σ).1 = Ok () ∧
  ∃ e, (generate_horizontal_bar_chart (add_record σ).2).1 = Raise e.
Proof.
  intros σ.
  refine (chart_fails_after_unreadable_capacity σ "20" "twenty" "1" []
            eq_refl _ _ _); vm_compute; reflexivity.
Defined.

(** * The threshold rule across the functions *)

(** For a new throughput that reads as a number other than NaN,
    [edit_record] derives the class of the record from the new throughput
    alone: the record at the position is formatted if the throughput is
    greater than 50 and plain if it is not, whatever it was before. *)
Theorem edit_record_class_from_threshold
    (σ : state) (s throughput_in capacity_in : string) (rest : list string)
    (k : Z) (v : spec_float) :
  stdin σ = s :: throughput_in :: capacity_in :: rest →
  int s = Ok k →
  1 ≤ k ≤ Z.of_nat (length (records σ)) →
  float (PyStr throughput_in) = Ok v →
  is_nan v = false →
  ∃ σ' edited,
    edit_record σ = (Ok (), σ') ∧
    records σ' !! Z.to_nat (k - 1) = Some edited ∧
    isinstance_FormattedPipelineRecord edited = float_gt v 50.
Proof.
  intros Hin Hint Hk Hf Hv.
  destruct (edit_record_class _ _ _ _ _ _ _ Hin Hint Hk Hf Hv) as (σ' & He & Hr).
  eexists σ', _. split; [done|]. rewrite Hr.
  split; [apply list_lookup_insert_eq; lia|]. by destruct (float_gt v 50).
Qed.

Lemma edit_record_class_from_threshold_witness :
  let σ := session [FormattedPipelineRecord (PyStr "60") (PyStr "5")]
             ["1"; "50"; "5"] in
  ∃ σ' edited,
    edit_record σ = (Ok (), σ') ∧
    records σ' !! Z.to_nat (1 - 1) = Some edited ∧
    isinstance_FormattedPipelineRecord edited
    = float_gt (S754_finite false 7036874417766400 (-47)) 50.
Proof.
  intros σ.
  refine (edit_record_class_from_threshold σ "1" "50" "5" [] 1
            (S754_finite false 7036874417766400 (-47)) eq_refl _ _ _ _).
  - vm_compute; reflexivity.
  - simpl; lia.
  - vm_compute; reflexivity.
  - reflexivity.
Defined.

(** A list within the threshold rule stays within it through a successful
    [add_record], through a [delete_record] within the list, and through an
    [edit_record] within the list whose new throughput reads as a number
    other than NaN. *)
Theorem store_ok_preserved (σ : state) :
  store_ok (records σ) = true →
  (∀ throughput_in capacity_in rest,
     stdin σ = throughput_in :: capacity_in :: rest →
     is_Ok (float (PyStr throughput_in)) = true →
     store_ok (records (add_record σ).2) = true) ∧
  (∀ s k rest,
     stdin σ = s :: rest →
     int s = Ok k →
     1 ≤ k ≤ Z.of_nat (length (records σ)) →
     store_ok (records (delete_record σ).2) = true) ∧
  (∀ s k throughput_in capacity_in rest v,
     stdin σ = s :: throughput_in :: capacity_in :: rest →
     int s = Ok k →
     1 ≤ k ≤ Z.of_nat (length (records σ)) →
     float (PyStr throughput_in) = Ok v →
     is_nan v = false →
     store_ok (records (edit_record σ).2) = true).
Proof.
  intros Hok. split; [|split].
  - intros t c rest Hin [v Hf]%is_Ok_true. by eapply add_record_store_ok.
  - intros s k rest Hin Hint Hk. by eapply delete_record_store_ok.
  - intros s k t c rest v Hin Hint Hk Hf Hv. by eapply edit_record_store_ok.
Qed.

Lemma store_ok_preserved_witness :
  let l := [FormattedPipelineRecord (PyStr "60") (PyStr "5");
            PipelineRecord (PyStr "10") (PyStr "n/a")] in
  store_ok (records (add_record (session l ["70"; "x"])).2) = true ∧
  store_ok (records (delete_record (session l ["2"])).2) = true ∧
  store_ok (records (edit_record (session l ["1"; "7"; "x"])).2) = true.
Proof.
  intros l. split; [|split].
  - refine (proj1 (store_ok_preserved (session l ["70"; "x"]) _)
              "70" "x" [] eq_refl _); vm_compute; reflexivity.
  - refine (proj1 (proj2 (store_ok_preserved (session l ["2"]) _))
              "2" 2 [] eq_refl _ _); [vm_compute; reflexivity..|simpl; lia].
  - refine (proj2 (proj2 (store_ok_preserved (session l ["1"; "7"; "x"]) _))
              "1" 1 "7" "x" [] (S754_finite false 7881299347898368 (-50))
              eq_refl _ _ _ _);
      [vm_compute; reflexivity..|simpl; lia|vm_compute; reflexivity|reflexivity].
Defined.

(** Whatever the file holds, the throughput of a freshly loaded list can be
    aggregated: [load_data_from_file] returns a list on which
    [aggregate_data] with the field throughput returns the three counts,
    which add up to the number of records loaded. *)
Theorem load_then_aggregate_throughput (file_name : string) (σ : state) :
  ∃ recs σ' low medium high,
    load_data_from_file file_name σ = (Ok recs, σ') ∧
    aggregate_data recs "throughput" = Ok (categories_of low medium high) ∧
    low + medium + high = Z.of_nat (length recs).
Proof.
  destruct (load_data_from_file_store_ok file_name σ) as (recs & σ' & Hload & Hok).
  apply store_ok_throughput_readable, Forall_field_value in Hok as [vs Hvs].
  exists recs, σ', (count in_low vs), (count in_medium vs), (count in_high vs).
  split; [done|]. split.
  - apply (aggregate_loop_counts "throughput" recs vs Hvs 0 0 0).
  - rewrite count_branches. by rewrite (Forall2_length _ _ _ Hvs).
Qed.
